(** * Timelapse monitor: a shallow embedding of [src/timelapse_monitor.py]

    The development follows the Python source of [TimelapseMonitor]:
    the local file system, the [processed_files] table, the object's
    fields and the calls made to the outside world form an explicit
    state; the outside world itself (remote sink, notification
    transports, camera, clock, process environment) is a record of
    oracles.  Python exceptions are results of a small state and
    exception monad, so that every [try]/[except]/[finally] of the
    source has a counterpart here. *)

From Stdlib Require Import ZArith QArith Ascii String List Lia Bool.
From stdpp Require Import base option list gmap strings fin_maps pretty.

Local Open Scope Z_scope.


(** ** Strings *)

Module Str.

(** [needle in haystack] of Python, on byte strings. *)
Fixpoint contains (needle haystack : string) : bool :=
  String.prefix needle haystack ||
  match haystack with
  | EmptyString => false
  | String _ rest => contains needle rest
  end.

(** [len(s)] as an integer. *)
Definition len (s : string) : Z := Z.of_nat (String.length s).

Definition is_space (c : ascii) : bool :=
  let n := nat_of_ascii c in
  ((9 <=? n) && (n <=? 13))%nat || (n =? 32)%nat.

Fixpoint lstrip (s : string) : string :=
  match s with
  | String c rest => if is_space c then lstrip rest else s
  | EmptyString => EmptyString
  end.

Definition strip (s : string) : string :=
  String.rev (lstrip (String.rev (lstrip s))).

Definition digit (c : ascii) : option Z :=
  let n := nat_of_ascii c in
  if ((48 <=? n) && (n <=? 57))%nat then Some (Z.of_nat (n - 48)) else None.

(** Decimal digits, single underscores allowed between two digits. *)
Fixpoint digits (s : string) (acc : Z) (after_digit : bool) : option Z :=
  match s with
  | EmptyString => if after_digit then Some acc else None
  | String c rest =>
      match digit c with
      | Some d => digits rest (10 * acc + d) true
      | None =>
          if Ascii.eqb c "_" && after_digit then digits rest acc false else None
      end
  end.

(** The default of [sys.get_int_max_str_digits()]: a literal of more
    digits is not converted. *)
Definition max_str_digits : nat := 4300.

(** [int(s)] for the ASCII decimal literals Python accepts: surrounding
    white space, an optional sign, digits.  [None] is [ValueError].  A
    text of more than [max_str_digits] characters is not parsed here;
    a shorter one cannot hold too many digits. *)
Definition py_int (s : string) : option Z :=
  if (String.length s <=? max_str_digits)%nat then
    match strip s with
    | String "-" rest => Z.opp <$> digits rest 0 false
    | String "+" rest => digits rest 0 false
    | t => digits t 0 false
    end
  else None.

(** [s.isascii()]: every byte of the text is below 128. *)
Fixpoint is_ascii (s : string) : bool :=
  match s with
  | EmptyString => true
  | String c rest => (nat_of_ascii c <? 128)%nat && is_ascii rest
  end.

(** The texts [py_int] speaks for: ASCII, and within the limit. *)
Definition plain (s : string) : bool :=
  is_ascii s && (String.length s <=? max_str_digits)%nat.

End Str.

(** ** Data model *)

(** [class NotificationPriority]. *)
Module NotificationPriority.
Definition CRITICAL : Z := 5.
Definition HIGH : Z := 4.
Definition MEDIUM : Z := 3.
Definition LOW : Z := 2.
Definition INFO : Z := 1.
End NotificationPriority.

(** The two directories the monitor works in: [self.temp_dir] and
    [self.backup_dir].  A path is a directory and a plain file name, as
    built by [dir / name] in the source; [filepath.name] is [path_name]. *)
Inductive Dir := TempDir | BackupDir.

Record Path := mkPath { path_dir : Dir; path_name : string }.

#[global] Instance Dir_eq_dec : EqDecision Dir.
Proof. solve_decision. Defined.

#[global] Instance Path_eq_dec : EqDecision Path.
Proof. solve_decision. Defined.

#[global] Instance Dir_countable : Countable Dir.
Proof.
  refine (inj_countable' (fun d => match d with TempDir => true | BackupDir => false end)
                         (fun b : bool => if b then TempDir else BackupDir) _).
  by intros [].
Defined.

#[global] Instance Path_countable : Countable Path.
Proof.
  refine (inj_countable' (fun p => (path_dir p, path_name p))
                         (fun dn => mkPath (fst dn) (snd dn)) _).
  by intros [].
Defined.

Definition dir_str (d : Dir) : string :=
  match d with
  | TempDir => "/tmp/timelapse_monitor"
  | BackupDir => "/opt/timelapse/backup"
  end.

(** [str(path)]. *)
Definition path_str (p : Path) : string :=
  dir_str (path_dir p) +:+ "/" +:+ path_name p.

(** The values the code writes to the [upload_status] column. *)
Inductive Status := Pending | Success | Backup.

#[global] Instance Status_eq_dec : EqDecision Status.
Proof. solve_decision. Defined.

(** One row of [processed_files]: the columns of the [INSERT] other than
    [filename], which is the key the row is stored under (see [db]). *)
Record FileRecord := mkRecord {
  checksum : string;
  file_size : Z;                  (* column size *)
  processed_at : string;
  upload_status : Status;
  retries : Z
}.

#[global] Instance FileRecord_eq_dec : EqDecision FileRecord.
Proof. solve_decision. Defined.

Definition with_status (s : Status) (r : FileRecord) : FileRecord :=
  mkRecord (checksum r) (file_size r) (processed_at r) s (retries r).

Definition with_retries (n : Z) (r : FileRecord) : FileRecord :=
  mkRecord (checksum r) (file_size r) (processed_at r) (upload_status r) n.

(** Calls that leave the process, in the order they are made. *)
Inductive Event :=
  | EvNotify (message : string) (priority : Z)    (* send_notification(message, priority) *)
  | EvHttpPost (url body : string) (priority : Z) (* requests.post *)
  | EvSerialWrite (cmd : string)                  (* modem_serial.write *)
  | EvUploadCall (filepath : Path)                (* upload_to_onedrive(filepath) entered *)
  | EvSinkUpload (remote_path body : string)      (* client.item(path=...).upload(file) *)
  | EvCameraGet (name : string).                  (* camera.file_get('/', name, ...) *)

#[global] Instance Event_eq_dec : EqDecision Event.
Proof. solve_decision. Defined.

(** The state the methods read and write.

    Modelled from the spec: the schema of [processed_files] (its
    [CREATE TABLE]) is not in the source.  The spec's data model has at
    most one record per [filename], which is what makes the source's
    [INSERT OR REPLACE] an upsert: the table is a finite map from the
    [filename] column to the other columns. *)
Record World := mkWorld {
  fs : gmap Path string;            (* files of the two directories, with their bytes *)
  db : gmap string FileRecord;      (* table processed_files *)
  camera : bool;                    (* self.camera is not None *)
  processed_files : gset string;    (* self.processed_files *)
  log : list Event
}.

Definition set_fs (f : gmap Path string → gmap Path string) (w : World) : World :=
  mkWorld (f (fs w)) (db w) (camera w) (processed_files w) (log w).
Definition set_db (f : gmap string FileRecord → gmap string FileRecord) (w : World) : World :=
  mkWorld (fs w) (f (db w)) (camera w) (processed_files w) (log w).
Definition set_camera (c : bool) (w : World) : World :=
  mkWorld (fs w) (db w) c (processed_files w) (log w).
Definition set_processed (f : gset string → gset string) (w : World) : World :=
  mkWorld (fs w) (db w) (camera w) (f (processed_files w)) (log w).
Definition emit (ev : Event) (w : World) : World :=
  mkWorld (fs w) (db w) (camera w) (processed_files w) (log w ++ [ev]).

(** ** The outside world *)

Inductive HttpResult :=
  | HttpRaises (err : string)     (* requests.post raised *)
  | HttpStatus (code : Z).        (* a response with this status code *)

Inductive SerialResult :=
  | SerialRaises (err : string)   (* write, read_all or decode raised *)
  | SerialReply (response : string).

Inductive IntResult :=
  | IntValue (n : Z)
  | ValueError (msg : string).    (* int() raised, with this str() *)

Inductive ListResult :=
  | Listed (names : list string)
  | GPhotoError (msg : string)    (* gp.GPhoto2Error *)
  | OtherError (msg : string).

Record Env := mkEnv {
  environ : gmap string string;                       (* os.environ *)
  int_other : string → IntResult;                     (* int() of a text that is not ASCII or exceeds the digit limit *)
  timestamp : string;                                 (* datetime.now().strftime('%Y%m%d_%H%M%S') in download_file *)
  now : string;                                       (* datetime.now() as INSERT stores it in processed_at *)
  sha256_hexdigest : string → string;                 (* hashlib.sha256(..).hexdigest() *)
  disk_write : string → string;                       (* the bytes a write of the scratch copy leaves on disk *)
  onedrive_upload : string → string → option string;  (* Some e: the upload raises e *)
  ntfy_post : string → string → Z → HttpResult;
  modem_reply : nat → string → SerialResult;          (* reply to the n-th command of an SMS session *)
  camera_init : nat → bool;                           (* does attempt n of connect_camera succeed *)
  camera_list : nat → ListResult;                     (* the n-th folder_list_files of a cycle *)
  camera_get : string → option string;                (* bytes of file_get + save, None if it raises *)
  disk_usage_percent : Q;                             (* psutil.disk_usage('/').percent *)
  thermal_zone0 : option Q;                           (* float(f.read().strip()) / 1000, None if it raises *)
  float_str : Q → string                              (* str() of a float *)
}.

(** [os.getenv(name, default)]. *)
Definition getenv (e : Env) (name dflt : string) : string :=
  default dflt (environ e !! name).

(** ** State and exceptions *)

Inductive Res (A : Type) :=
  | Ret (a : A)            (* normal return *)
  | Raise (err : string).  (* an exception, with its str() *)
Arguments Ret {A} a.
Arguments Raise {A} err.

Definition M (A : Type) : Type := World → Res A * World.

Definition ret {A} (a : A) : M A := λ w, (Ret a, w).

Definition bind {A B} (m : M A) (k : A → M B) : M B := λ w,
  match m w with
  | (Ret a, w') => k a w'
  | (Raise err, w') => (Raise err, w')
  end.

Declare Scope action_scope.
Notation "x ← y ; z" := (bind y (λ x : _, z))
  (at level 20, y at level 100, z at level 200, only parsing) : action_scope.
Notation "x ;; z" := (bind x (λ _, z))
  (at level 100, z at level 200, only parsing, right associativity) : action_scope.
Local Open Scope action_scope.

Definition raise {A} (err : string) : M A := λ w, (Raise err, w).

(** [try: body  except Exception as err: handler]. *)
Definition try_except {A} (body : M A) (handler : string → M A) : M A := λ w,
  match body w with
  | (Ret a, w') => (Ret a, w')
  | (Raise err, w') => handler err w'
  end.

(** [try: body  finally: cleanup]. *)
Definition finally {A} (body : M A) (cleanup : M unit) : M A := λ w,
  match body w with
  | (r, w1) =>
      match cleanup w1 with
      | (Ret _, w2) => (r, w2)
      | (Raise err, w2) => (Raise err, w2)
      end
  end.

Definition gets {A} (f : World → A) : M A := λ w, (Ret (f w), w).
Definition modify (f : World → World) : M unit := λ w, (Ret tt, f w).

(** [for x in l: body x]. *)
Fixpoint for_each {A} (l : list A) (body : A → M unit) : M unit :=
  match l with
  | [] => ret tt
  | x :: rest => body x;; for_each rest body
  end.

(** The world an action ends in, and what it returns. *)
Definition world_of {A} (r : Res A * World) : World := snd r.
Definition result_of {A} (r : Res A * World) : Res A := fst r.

(** ** The local file system *)

Definition file_not_found {A} (p : Path) : M A :=
  raise ("[Errno 2] No such file or directory: '" +:+ path_str p +:+ "'").

(** [p.exists()]. *)
Definition path_exists (p : Path) : M bool :=
  gets (λ w, bool_decide (is_Some (fs w !! p))).

(** Opening [p] for reading, and reading all of it. *)
Definition read_bytes (p : Path) : M string := λ w,
  match fs w !! p with
  | Some data => (Ret data, w)
  | None => file_not_found p w
  end.

(** Opening [p] with mode ['wb'] truncates it; a write replaces its bytes. *)
Definition write_bytes (p : Path) (data : string) : M unit :=
  modify (set_fs <[p := data]>).

(** [p.stat().st_size]. *)
Definition stat_size (p : Path) : M Z :=
  data ← read_bytes p; ret (Str.len data).

(** [p.unlink()]. *)
Definition unlink (p : Path) : M unit :=
  _ ← read_bytes p; modify (set_fs (delete p)).

(** [src.rename(dst)]: replaces [dst] if it exists; the error of a
    missing [src] names both paths. *)
Definition rename (src dst : Path) : M unit := λ w,
  match fs w !! src with
  | Some data => (Ret tt, set_fs (λ files, <[dst := data]> (delete src files)) w)
  | None =>
      raise ("[Errno 2] No such file or directory: '" +:+ path_str src +:+
             "' -> '" +:+ path_str dst +:+ "'") w
  end.

(** ** The table [processed_files] *)

(** [SELECT filename ... WHERE filename = ? AND upload_status = 'success'],
    then [cursor.fetchone()] as a truth value. *)
Definition select_success (filename : string) : M bool :=
  gets (λ w, match db w !! filename with
             | Some r => bool_decide (upload_status r = Success)
             | None => false
             end).

(** [INSERT OR REPLACE INTO processed_files ... VALUES (...)]. *)
Definition insert_or_replace (filename : string) (r : FileRecord) : M unit :=
  modify (set_db <[filename := r]>).

(** [UPDATE processed_files SET upload_status = ? WHERE filename = ?]. *)
Definition update_status (filename : string) (s : Status) : M unit :=
  modify (set_db (alter (with_status s) filename)).

(** [UPDATE processed_files SET retries = retries + 1 WHERE filename = ?]. *)
Definition increment_retries (filename : string) : M unit :=
  modify (set_db (alter (λ r, with_retries (retries r + 1) r) filename)).

(** [SELECT filename, retries ... WHERE upload_status = 'backup'], then
    [cursor.fetchall()]. *)
Definition backup_rows (table : gmap string FileRecord) : list (string * Z) :=
  (λ kr, (kr.1, retries kr.2)) <$>
  map_to_list (filter (λ kr, upload_status kr.2 = Backup) table).

Definition select_backup : M (list (string * Z)) :=
  gets (λ w, backup_rows (db w)).

(** [int(s)] of a [str].  An ASCII text within the digit limit is
    parsed as written.  In any other text Python first maps the decimal
    digits and the white space of every script to ASCII, by the Unicode
    tables of the interpreter, and counts the digits against its limit:
    what it answers there is left to the interpreter. *)
Definition int_of_str (e : Env) (s : string) : IntResult :=
  if Str.plain s then
    match Str.py_int s with
    | Some n => IntValue n
    | None => ValueError ("invalid literal for int() with base 10: '" +:+ s +:+ "'")
    end
  else int_other e s.

(** [int(os.getenv(name, default))]. *)
Definition env_int (e : Env) (name dflt : string) : M Z :=
  match int_of_str e (getenv e name dflt) with
  | IntValue n => ret n
  | ValueError err => raise err
  end.

(** ** Checksum and verification *)

Definition calculate_checksum (e : Env) (file_path : Path) : M string :=
  data ← read_bytes file_path; ret (sha256_hexdigest e data).

(** Truth value of an optional integer: [None] and [0] are false. *)
Definition truthy (n : option Z) : bool :=
  match n with
  | Some n => negb (n =? 0)%Z
  | None => false
  end.

Definition verify_file (file_path : Path) (original_size : option Z) : M bool :=
  present ← path_exists file_path;
  if negb present then ret false
  else
    current_size ← stat_size file_path;
    if truthy original_size && negb (bool_decide (Some current_size = original_size))
    then ret false
    else ret true.

(** ** Notification channel *)

Definition CR : string := String "013" "".
Definition CTRL_Z : string := String "026" "".
Definition DQUOTE : string := String "034" "".

(** [self.ntfy_url]; an unset variable formats as [None]. *)
Definition ntfy_url (e : Env) : string :=
  "https://ntfy.sh/" +:+ getenv e "NTFY_TOPIC" "None".

(** [response.raise_for_status()]: client and server errors raise. *)
Definition raise_for_status (code : Z) : M unit :=
  if ((400 <=? code) && (code <? 600))%Z
  then raise "HTTPError"
  else ret tt.

(** The three AT commands of the SMS fallback. *)
Definition sms_commands (e : Env) (message : string) : list string :=
  [ "AT+CMGF=1" +:+ CR;
    "AT+CMGS=" +:+ DQUOTE +:+ getenv e "ADMIN_PHONE" "None" +:+ DQUOTE +:+ CR;
    message +:+ CTRL_Z ].

(** One turn of [for cmd in commands], [n] being the position of [cmd]. *)
Definition sms_command (e : Env) (n : nat) (cmd : string) : M unit :=
  modify (emit (EvSerialWrite cmd));;
  match modem_reply e n cmd with
  | SerialRaises err => raise err
  | SerialReply response =>
      if Str.contains "ERROR" response
      then raise ("Modem command failed: " +:+ response)
      else ret tt
  end.

Fixpoint sms_session (e : Env) (n : nat) (commands : list string) : M unit :=
  match commands with
  | [] => ret tt
  | cmd :: rest => sms_command e n cmd;; sms_session e (S n) rest
  end.

Definition send_notification (e : Env) (message : string) (priority : Z) : M bool :=
  modify (emit (EvNotify message priority));;
  try_except
    (modify (emit (EvHttpPost (ntfy_url e) message priority));;
     match ntfy_post e (ntfy_url e) message priority with
     | HttpRaises err => raise err
     | HttpStatus code => raise_for_status code;; ret true
     end)
    (λ _,
       try_except
         (sms_session e 0 (sms_commands e message);; ret true)
         (λ _, ret false)).

(** ** Delivery *)

Definition remote_path (filename : string) : string := "/Timelapse/" +:+ filename.

(** [client.item(drive='me', path=...).upload(file)]. *)
Definition sink_upload (e : Env) (remote body : string) : M unit :=
  modify (emit (EvSinkUpload remote body));;
  match onedrive_upload e remote body with
  | Some err => raise err
  | None => ret tt
  end.

Definition upload_to_onedrive (e : Env) (filepath : Path) : M bool :=
  modify (emit (EvUploadCall filepath));;
  let filename := path_name filepath in
  let temp_path := mkPath TempDir ("upload_" +:+ filename) in
  finally
    (try_except
       ((* Create temporary copy for upload *)
        _ ← read_bytes filepath;
        write_bytes temp_path "";;
        data ← read_bytes filepath;
        write_bytes temp_path (disk_write e data);;
        (* Verify copy *)
        original_size ← stat_size filepath;
        verified ← verify_file temp_path (Some original_size);
        (if negb verified then raise "File verification failed after copy" else ret tt);;
        (* Attempt upload *)
        body ← read_bytes temp_path;
        sink_upload e (remote_path filename) body;;
        (* Clean up original file after successful upload *)
        unlink filepath;;
        ret true)
       (λ err,
          send_notification e ("OneDrive upload failed: " +:+ err) NotificationPriority.MEDIUM;;
          (* Move to backup location on failure *)
          try_except
            (rename filepath (mkPath BackupDir (path_name filepath)))
            (λ _, ret tt);;
          ret false))
    ((* Clean up any temporary files *)
     try_except
       (present ← path_exists temp_path;
        if present then unlink temp_path else ret tt)
       (λ _, ret tt)).

Definition handle_file_processing (e : Env) (filename : string) (local_path : Path) : M bool :=
  try_except
    (checksum ← calculate_checksum e local_path;
     file_size ← stat_size local_path;
     (* Check if file was already processed *)
     already ← select_success filename;
     if already then ret true
     else
       (* Store file info *)
       insert_or_replace filename (mkRecord checksum file_size (now e) Pending 0);;
       (* Try OneDrive upload *)
       uploaded ← upload_to_onedrive e local_path;
       if uploaded then
         update_status filename Success;;
         ret true
       else
         (* If OneDrive fails, save to backup location *)
         rename local_path (mkPath BackupDir filename);;
         update_status filename Backup;;
         send_notification e
           ("File " +:+ filename +:+ " saved to backup storage after upload failure")
           NotificationPriority.MEDIUM;;
         ret true)
    (λ err,
       send_notification e
         ("File processing failed for " +:+ filename +:+ ": " +:+ err)
         NotificationPriority.HIGH;;
       ret false).

(** ** Backlog resync *)

(** The body of [for filename, retries in backup_files]. *)
Definition resync_one (e : Env) (row : string * Z) : M unit :=
  let filename := row.1 in
  let tried := row.2 in
  max_retries ← env_int e "MAX_RETRIES" "5";
  if (max_retries <=? tried)%Z then ret tt
  else
    let backup_path := mkPath BackupDir filename in
    present ← path_exists backup_path;
    if negb present then ret tt
    else
      uploaded ← upload_to_onedrive e backup_path;
      if uploaded then
        update_status filename Success;;
        send_notification e
          ("Successfully uploaded backup file " +:+ filename)
          NotificationPriority.LOW;;
        ret tt
      else
        increment_retries filename.

Definition backup_error_handler (e : Env) (err : string) : M unit :=
  send_notification e ("Error processing backup files: " +:+ err) NotificationPriority.HIGH;;
  ret tt.

Definition process_backup_files (e : Env) : M unit :=
  try_except
    (backup_files ← select_backup;
     for_each backup_files (resync_one e))
    (backup_error_handler e).

(** ** Capture device *)

Definition connect_retries : nat := 3.

(** The turns of [for attempt in range(self.connect_retries)] still to run,
    followed by the code after the loop. *)
Fixpoint connect_attempts (e : Env) (attempts : list nat) : M bool :=
  match attempts with
  | [] =>
      send_notification e "Camera connection failed" NotificationPriority.HIGH;;
      ret false
  | attempt :: rest =>
      modify (set_camera true);;
      if camera_init e attempt then ret true
      else
        modify (set_camera false);;
        connect_attempts e rest
  end.

Definition connect_camera (e : Env) : M bool :=
  connect_attempts e (seq 0 connect_retries).

(** [not self.camera and not self.connect_camera()]. *)
Definition camera_unavailable (e : Env) : M bool :=
  connected ← gets camera;
  if connected then ret false
  else ok ← connect_camera e; ret (negb ok).

(** [get_camera_files], [call] counting the listings of the cycle; the
    result keeps the names of the listed files. *)
Definition get_camera_files (e : Env) (call : nat) : M (list string) :=
  unavailable ← camera_unavailable e;
  if unavailable then ret []
  else
    match camera_list e call with
    | Listed names => ret names
    | GPhotoError msg =>
        if Str.contains "Camera is already in use" msg then ret []
        else
          modify (set_camera false);;
          ret []
    | OtherError _ => ret []
    end.

Definition download_file (e : Env) (filename : string) : M (option Path) :=
  let local_path := mkPath TempDir ("timelapse_" +:+ timestamp e +:+ "_" +:+ filename) in
  unavailable ← camera_unavailable e;
  if unavailable then ret None
  else
    modify (emit (EvCameraGet filename));;
    match camera_get e filename with
    | Some data => write_bytes local_path data;; ret (Some local_path)
    | None => ret None
    end.

(** The body of [for file_info in new_file_infos]. *)
Definition ingest_one (e : Env) (filename : string) : M unit :=
  local_path ← download_file e filename;
  match local_path with
  | Some p =>
      handled ← handle_file_processing e filename p;
      if handled then modify (set_processed (λ s, {[filename]} ∪ s)) else ret tt
  | None => ret tt
  end.

(** [set(list(self.processed_files)[-1000:])]; the order in which a Python
    set lists its members is that of [elements] here. *)
Definition limit_processed (s : gset string) : gset string :=
  if (1000 <? size s)%nat
  then list_to_set (drop (size s - 1000)%nat (elements s))
  else s.

Definition check_new_images (e : Env) : M unit :=
  try_except
    (names ← get_camera_files e 0;
     processed ← gets processed_files;
     let current_files : gset string := list_to_set names in
     let new_files := current_files ∖ processed in
     if decide (new_files = ∅) then ret tt
     else
       (* Get full file info for new files *)
       all_files ← get_camera_files e 1;
       let new_file_infos := filter (λ f, f ∈ new_files) all_files in
       for_each new_file_infos (ingest_one e);;
       (* Limit size of processed files set *)
       modify (set_processed limit_processed))
    (λ _,
       send_notification e "Failed to check new images" NotificationPriority.HIGH;;
       ret tt).

(** ** Health supervisor *)

(** [x >= int(os.getenv(name, default))] for a float [x]. *)
Definition at_least (e : Env) (x : Q) (name dflt : string) : M bool :=
  threshold ← env_int e name dflt;
  ret (Qle_bool (inject_Z threshold) x).

Definition check_disk (e : Env) : M unit :=
  let percent := disk_usage_percent e in
  critical ← at_least e percent "DISK_CRITICAL_THRESHOLD" "10";
  if critical then
    send_notification e
      ("Critical: Disk space low (" +:+ float_str e percent +:+ "% used)")
      NotificationPriority.CRITICAL;;
    ret tt
  else
    warning ← at_least e percent "DISK_WARNING_THRESHOLD" "25";
    if warning then
      send_notification e
        ("Warning: Disk space getting low (" +:+ float_str e percent +:+ "% used)")
        NotificationPriority.LOW;;
      ret tt
    else ret tt.

Definition check_temperature (e : Env) : M unit :=
  try_except
    (match thermal_zone0 e with
     | None => raise "thermal_zone0"
     | Some temp =>
         critical ← at_least e temp "TEMP_CRITICAL_THRESHOLD" "80";
         if critical then
           send_notification e
             ("Critical: System temperature " +:+ float_str e temp +:+ "°C")
             NotificationPriority.CRITICAL;;
           ret tt
         else
           warning ← at_least e temp "TEMP_WARNING_THRESHOLD" "70";
           if warning then
             send_notification e
               ("Warning: System temperature " +:+ float_str e temp +:+ "°C")
               NotificationPriority.HIGH;;
             ret tt
           else ret tt
     end)
    (λ _, ret tt).

(** One turn of the [while True] of [system_monitor], without its sleeps. *)
Definition system_monitor_sample (e : Env) : M unit :=
  try_except
    (check_disk e;;
     check_temperature e)
    (λ _, ret tt).

(** ** Vocabulary of the statements *)

(** Entries added to the log, at its end. *)
Definition add_log (new : list Event) (w : World) : World :=
  mkWorld (fs w) (db w) (camera w) (processed_files w) (log w ++ new).

(** The notifications of a stretch of the log, in order. *)
Definition notifications (l : list Event) : list (string * Z) :=
  omap (λ ev, match ev with
              | EvNotify message priority => Some (message, priority)
              | _ => None
              end) l.

(** Traffic of the two notification transports. *)
Definition is_wire (ev : Event) : bool :=
  match ev with
  | EvHttpPost _ _ _ | EvSerialWrite _ => true
  | _ => false
  end.

(** The primary transport delivers as the code has it: the post returns
    and its status is not one [raise_for_status] raises on, that is, not
    a 4xx or 5xx. *)
Definition primary_ok (e : Env) (message : string) (priority : Z) : bool :=
  match ntfy_post e (ntfy_url e) message priority with
  | HttpRaises _ => false
  | HttpStatus code => negb ((400 <=? code) && (code <? 600))%Z
  end.

(** The primary transport fails in the words of the spec: the post
    raises, or the status of its response is not a 2xx. *)
Definition spec_primary_fails (e : Env) (message : string) (priority : Z) : bool :=
  match ntfy_post e (ntfy_url e) message priority with
  | HttpRaises _ => true
  | HttpStatus code => negb ((200 <=? code) && (code <? 300))%Z
  end.

(** The modem takes the command at position [n] and its reply holds no
    [ERROR]. *)
Definition command_ok (e : Env) (n : nat) (cmd : string) : bool :=
  match modem_reply e n cmd with
  | SerialRaises _ => false
  | SerialReply response => negb (Str.contains "ERROR" response)
  end.

Fixpoint session_ok (e : Env) (n : nat) (commands : list string) : bool :=
  match commands with
  | [] => true
  | cmd :: rest => command_ok e n cmd && session_ok e (S n) rest
  end.

(** The secondary transport delivers. *)
Definition secondary_ok (e : Env) (message : string) : bool :=
  session_ok e 0 (sms_commands e message).

(** The scratch copy of [data] passes [verify_file] against the size of
    its source. *)
Definition copy_passes (e : Env) (data : string) : bool :=
  (Str.len data =? 0)%Z || (Str.len (disk_write e data) =? Str.len data)%Z.

(** The upload of a file named [name] holding [data] fails with [err]:
    the scratch copy does not verify, or the sink raises. *)
Inductive UploadFails (e : Env) (name data : string) : string → Prop :=
  | CopyMismatch :
      copy_passes e data = false →
      UploadFails e name data "File verification failed after copy"
  | SinkRaises err :
      copy_passes e data = true →
      onedrive_upload e (remote_path name) (disk_write e data) = Some err →
      UploadFails e name data err.

(** The upload of a file named [name] holding [data] goes through. *)
Definition UploadAccepted (e : Env) (name data : string) : Prop :=
  copy_passes e data = true ∧
  onedrive_upload e (remote_path name) (disk_write e data) = None.

(** SMS sessions opened in a stretch of the log: every session starts by
    writing the mode command. *)
Definition sms_sessions (l : list Event) : nat :=
  length (filter (λ ev, ev = EvSerialWrite ("AT+CMGF=1" +:+ CR)) l).

Fixpoint last_char (s : string) : option ascii :=
  match s with
  | EmptyString => None
  | String c EmptyString => Some c
  | String _ rest => last_char rest
  end.

(** ** Sample worlds *)

Module Sample.

(** An interpreter that takes no text beyond those parsed here. *)
Definition rejects (s : string) : IntResult :=
  ValueError ("invalid literal for int() with base 10: '" +:+ s +:+ "'").

(** A site where nothing works: the sink times out, the post to ntfy.sh
    fails and the modem answers every command with an error. *)
Definition offline : Env :=
  mkEnv ∅ rejects "20240101_000000" "2024-01-01 00:00:00" (λ data, data) (λ data, data)
        (λ _ _, Some "timed out")
        (λ _ _ _, HttpRaises "connection refused")
        (λ _ _, SerialReply "+CMS ERROR: 500")
        (λ _, true) (λ _, Listed ["IMG_01.JPG"]) (λ _, Some "jpeg bytes")
        76 None (λ _, "76.0").

(** The same site with a modem that works. *)
Definition sms_only : Env :=
  mkEnv ∅ rejects "20240101_000000" "2024-01-01 00:00:00" (λ data, data) (λ data, data)
        (λ _ _, Some "timed out")
        (λ _ _ _, HttpStatus 503)
        (λ _ _, SerialReply "OK")
        (λ _, true) (λ _, Listed ["IMG_01.JPG"]) (λ _, Some "jpeg bytes")
        76 None (λ _, "76.0").

(** A site where everything works. *)
Definition online : Env :=
  mkEnv ∅ rejects "20240101_000000" "2024-01-01 00:00:00" (λ data, data) (λ data, data)
        (λ _ _, None)
        (λ _ _ _, HttpStatus 200)
        (λ _ _, SerialReply "OK")
        (λ _, true) (λ _, Listed ["IMG_01.JPG"]) (λ _, Some "jpeg bytes")
        50 None (λ _, "50.0").

(** A site whose notification server answers 304 to every post, and
    whose modem answers every command with an error. *)
Definition not_modified : Env :=
  mkEnv ∅ rejects "20240101_000000" "2024-01-01 00:00:00" (λ data, data) (λ data, data)
        (λ _ _, None)
        (λ _ _ _, HttpStatus 304)
        (λ _ _, SerialReply "+CMS ERROR: 500")
        (λ _, true) (λ _, Listed ["IMG_01.JPG"]) (λ _, Some "jpeg bytes")
        50 None (λ _, "50.0").

Definition empty_world : World := mkWorld ∅ ∅ false ∅ [].

(** A backlog of three files: one with a retry left, one at the
    default ceiling of five, one whose payload is gone. *)
Definition backlog : World :=
  mkWorld {[ mkPath BackupDir "IMG_02.JPG" := "jpeg bytes";
             mkPath BackupDir "IMG_03.JPG" := "jpeg bytes" ]}
          {[ "IMG_02.JPG" := mkRecord "c2" 10 "2024-01-01 00:00:00" Backup 4;
             "IMG_03.JPG" := mkRecord "c3" 10 "2024-01-01 00:00:00" Backup 5;
             "IMG_04.JPG" := mkRecord "c4" 10 "2024-01-01 00:00:00" Backup 1 ]}
          false ∅ [].

(** A backlog of one file. *)
Definition one_backup : World :=
  mkWorld {[ mkPath BackupDir "IMG_02.JPG" := "jpeg bytes" ]}
          {[ "IMG_02.JPG" := mkRecord "c2" 10 "2024-01-01 00:00:00" Backup 4 ]}
          false ∅ [].

(** The file of [one_backup] found on the camera again and downloaded. *)
Definition rediscovered : World :=
  set_fs <[ mkPath TempDir "timelapse_20240101_000000_IMG_02.JPG" := "jpeg bytes" ]>
         one_backup.


End Sample.

(** ** Footprints *)

(** What an action may touch: files, rows of the table, and the entries
    it may add to the log. *)
Record Footprint := mkFootprint {
  files : Path → Prop;
  records : string → Prop;
  events : Event → Prop
}.

(** [w'] differs from [w] within the footprint: files and rows outside
    it are as they were, and the log has grown by allowed entries. *)
Definition within (F : Footprint) (w w' : World) : Prop :=
  (∀ p, ¬ files F p → fs w' !! p = fs w !! p) ∧
  (∀ f, ¬ records F f → db w' !! f = db w !! f) ∧
  (∃ new, log w' = log w ++ new ∧ Forall (events F) new).

(** The action stays within the footprint, whatever it returns. *)
Definition stays {A} (F : Footprint) (m : M A) : Prop :=
  ∀ w, within F w (world_of (m w)).

(** The action returns: no exception leaves it. *)
Definition returns {A} (m : M A) : Prop :=
  ∀ w, ∃ a w', m w = (Ret a, w').

(** Log entries of the notification channel. *)
Definition is_notice (ev : Event) : bool :=
  match ev with
  | EvNotify _ _ => true
  | _ => is_wire ev
  end.

(** The scratch copy [upload_to_onedrive] makes of a file. *)
Definition scratch_path (filepath : Path) : Path :=
  mkPath TempDir ("upload_" +:+ path_name filepath).

(** Where [upload_to_onedrive] moves a file it could not upload. *)
Definition fallback_path (filepath : Path) : Path :=
  mkPath BackupDir (path_name filepath).

(** Log entries of an upload of [filepath]. *)
Definition is_upload_of (filepath : Path) (ev : Event) : Prop :=
  ev = EvUploadCall filepath ∨
  ∃ body, ev = EvSinkUpload (remote_path (path_name filepath)) body.

Definition upload_footprint (filepath : Path) : Footprint :=
  mkFootprint
    (λ p, p = filepath ∨ p = scratch_path filepath ∨ p = fallback_path filepath)
    (λ _, False)
    (λ ev, is_notice ev = true ∨ is_upload_of filepath ev).

(** [download_file] names the local copy after the clock and the file. *)
Definition local_path (e : Env) (filename : string) : Path :=
  mkPath TempDir ("timelapse_" +:+ timestamp e +:+ "_" +:+ filename).


Definition resync_footprint (filename : string) : Footprint :=
  mkFootprint
    (files (upload_footprint (mkPath BackupDir filename)))
    (λ f, f = filename)
    (events (upload_footprint (mkPath BackupDir filename))).


(** The call the upload step makes to the sink, if the scratch copy
    verifies. *)
Definition sink_attempt (e : Env) (filepath : Path) (data : string) : list Event :=
  if copy_passes e data
  then [EvSinkUpload (remote_path (path_name filepath)) (disk_write e data)]
  else [].

(** The store does not mark [filename] as delivered. *)
Definition undelivered (w : World) (filename : string) : Prop :=
  ∀ r, db w !! filename = Some r → upload_status r ≠ Success.

(** The row [handle_file_processing] stores for a payload, with the
    status it ends in. *)
Definition ingest_record (e : Env) (data : string) (s : Status) : FileRecord :=
  mkRecord (sha256_hexdigest e data) (Str.len data) (now e) s 0.

(** The rows of a listing that are not about [filename]. *)
Definition other_rows (filename : string) (rows : list (string * Z)) : list (string * Z) :=
  filter (λ row, row.1 ≠ filename) rows.

(** What a resync run may touch when it leaves [filename] alone. *)
Definition other_footprint (filename : string) : Footprint :=
  mkFootprint
    (λ p, ∃ g, g ≠ filename ∧ files (resync_footprint g) p)
    (λ g, g ≠ filename)
    (λ ev, is_notice ev = true ∨
           ∃ g, g ≠ filename ∧ is_upload_of (mkPath BackupDir g) ev).

(** ** The claims that fail, as stated *)

(** Backup monotonicity between two worlds: a record of [f] that was
    [backup] is now [success], or still [backup] with more retries. *)
Definition backup_monotone (f : string) (w w' : World) : Prop :=
  ∀ r, db w !! f = Some r → upload_status r = Backup →
    ∃ r', db w' !! f = Some r' ∧
          (upload_status r' = Success ∨
           (upload_status r' = Backup ∧ (retries r < retries r')%Z)).


(** ** The rest of the monitor *)

(** The host the monitor runs on, beside the collaborators of [Env]. *)
Record Host := mkHost {
  ups_pin_low : bool;              (* GPIO.input(self.UPS_PIN) == GPIO.LOW *)
  reboot : option string;          (* subprocess.run(['sudo', 'reboot']); Some e: it raises e *)
  network_probe : nat → bool       (* does the n-th requests.get("https://1.1.1.1") return *)
}.

Definition monitor_power (e : Env) (h : Host) : M bool :=
  if ups_pin_low h then
    send_notification e "Power failure detected!" NotificationPriority.HIGH;;
    ret false
  else ret true.

Definition CRLF : string := String "013" (String "010" "").

(** The commands of [init_4g], in the order they are written. *)
Definition init_4g_commands : list string :=
  ["AT"; "AT+CPIN?"; "AT+CSQ"; "AT+CREG?"; "AT+CGACT=1,1"].

(** One turn of [for cmd in commands] of [init_4g], [n] being the
    position of [cmd]: the reply is logged, whatever it says. *)
Definition init_4g_command (e : Env) (n : nat) (cmd : string) : M unit :=
  modify (emit (EvSerialWrite (cmd +:+ CRLF)));;
  match modem_reply e n (cmd +:+ CRLF) with
  | SerialRaises err => raise err
  | SerialReply _ => ret tt
  end.

Fixpoint init_4g_session (e : Env) (n : nat) (commands : list string) : M unit :=
  match commands with
  | [] => ret tt
  | cmd :: rest => init_4g_command e n cmd;; init_4g_session e (S n) rest
  end.

Definition init_4g (e : Env) : M unit :=
  try_except
    (init_4g_session e 0 init_4g_commands)
    (λ _,
       send_notification e "4G modem initialization failed" NotificationPriority.HIGH;;
       ret tt).

(** [check_network]: the turns of its [while] loop that are left when
    [retry_count] probes have failed, with the seconds slept between
    them.  The loop runs while [retry_count < max_retries]. *)
Definition network_max_retries : nat := 3.
Definition network_retry_delay : Z := 5.

Fixpoint check_network_loop (h : Host) (turns retry_count : nat) : bool * list Z :=
  match turns with
  | O => (false, [])
  | S turns' =>
      if network_probe h retry_count then (true, [])
      else
        let retry_count' := S retry_count in
        let pause :=
          if (retry_count' <? network_max_retries)%nat
          then [network_retry_delay * 2 ^ (Z.of_nat retry_count' - 1)]%Z
          else [] in
        let '(ok, pauses) := check_network_loop h turns' retry_count' in
        (ok, pause ++ pauses)
  end.

Definition check_network (h : Host) : bool * list Z :=
  check_network_loop h network_max_retries 0.

(** [if self.camera: (try: self.camera.exit() except: pass); self.camera = None]. *)
Definition release_camera : M unit :=
  connected ← gets camera;
  if connected then modify (set_camera false) else ret tt.

(** *** The main loop

    The loop of [run] works on the fields of the monitor the methods
    above leave alone: the count of consecutive failures.  They are
    added here to the world, with the reboots asked for and the
    seconds slept. *)
Module Loop.

Record State := mkState {
  world : World;
  consecutive_failures : Z;      (* self.consecutive_failures *)
  reboots : nat;                 (* calls of subprocess.run(['sudo', 'reboot']) *)
  slept : list Z                 (* time.sleep(seconds), in order *)
}.

Definition R (A : Type) : Type := State → Res A * State.

Definition ret {A} (a : A) : R A := λ s, (Ret a, s).

Definition bind {A B} (m : R A) (k : A → R B) : R B := λ s,
  match m s with
  | (Ret a, s') => k a s'
  | (Raise err, s') => (Raise err, s')
  end.

Definition try_except {A} (body : R A) (handler : string → R A) : R A := λ s,
  match body s with
  | (Ret a, s') => (Ret a, s')
  | (Raise err, s') => handler err s'
  end.

(** A method of the monitor, run on the world of the state. *)
Definition lift {A} (m : M A) : R A := λ s,
  match m (world s) with
  | (r, w') => (r, mkState w' (consecutive_failures s) (reboots s) (slept s))
  end.

Definition gets {A} (f : State → A) : R A := λ s, (Ret (f s), s).

Definition set_failures (f : Z → Z) : R unit := λ s,
  (Ret tt, mkState (world s) (f (consecutive_failures s)) (reboots s) (slept s)).

(** [time.sleep(seconds)]. *)
Definition sleep (seconds : Z) : R unit := λ s,
  (Ret tt, mkState (world s) (consecutive_failures s) (reboots s) (slept s ++ [seconds])).

(** [subprocess.run(['sudo', 'reboot'])]. *)
Definition run_reboot (h : Host) : R unit := λ s,
  let s' := mkState (world s) (consecutive_failures s) (S (reboots s)) (slept s) in
  match reboot h with
  | Some err => (Raise err, s')
  | None => (Ret tt, s')
  end.

Declare Scope loop_scope.
Notation "x ← y ; z" := (bind y (λ x : _, z))
  (at level 20, y at level 100, z at level 200, only parsing) : loop_scope.
Notation "x ;; z" := (bind x (λ _, z))
  (at level 100, z at level 200, only parsing, right associativity) : loop_scope.
Local Open Scope loop_scope.

Definition max_consecutive_failures : Z := 3.

(** One turn of the [while True] of [run], for a process that is not
    interrupted from the keyboard. *)
Definition run_cycle (e : Env) (h : Host) (check_interval : Z) : R unit :=
  try_except
    ((* Check power status *)
     powered ← lift (monitor_power e h);
     (if negb powered
      then set_failures (λ n, n + 1)%Z
      else set_failures (λ _, 0%Z));;
     (* Check for new images *)
     lift (check_new_images e);;
     (* Try to process any backup files *)
     lift (process_backup_files e);;
     (* Disconnect camera between checks to allow sleep *)
     lift release_camera;;
     (* Check if we need to restart due to too many failures *)
     failures ← gets consecutive_failures;
     (if (max_consecutive_failures <=? failures)%Z then
        lift (send_notification e
                ("System restart triggered after " +:+ pretty failures +:+
                 " consecutive failures")
                NotificationPriority.CRITICAL);;
        run_reboot h
      else ret tt);;
     sleep check_interval)
    (λ err,
       lift (send_notification e ("Main loop error: " +:+ err)
               NotificationPriority.CRITICAL);;
       set_failures (λ n, n + 1)%Z;;
       sleep 60).

End Loop.
(** * Properties *)

(** ** Running actions *)

Section Run.
Context {A B : Type}.
Implicit Types (m : M A) (k : A → M B) (w : World).

Lemma bind_run m k w a w' :
  m w = (Ret a, w') → bind m k w = k a w'.
Proof. unfold bind. by intros ->. Qed.

Lemma bind_raise m k w err w' :
  m w = (Raise err, w') → bind m k w = (Raise err, w').
Proof. unfold bind. by intros ->. Qed.

Lemma try_except_run m (h : string → M A) w a w' :
  m w = (Ret a, w') → try_except m h w = (Ret a, w').
Proof. unfold try_except. by intros ->. Qed.

Lemma try_except_raise m (h : string → M A) w err w' :
  m w = (Raise err, w') → try_except m h w = h err w'.
Proof. unfold try_except. by intros ->. Qed.

Lemma bind_step m k w a w' r :
  m w = (Ret a, w') → k a w' = r → bind m k w = r.
Proof. unfold bind. by intros -> <-. Qed.

Lemma try_catch m (h : string → M A) w err w' r :
  m w = (Raise err, w') → h err w' = r → try_except m h w = r.
Proof. unfold try_except. by intros -> <-. Qed.

Lemma finally_step m (c : M unit) w r w1 w2 :
  m w = (r, w1) → c w1 = (Ret tt, w2) → finally m c w = (r, w2).
Proof. unfold finally. by intros -> ->. Qed.

Lemma bind_modify (f : World → World) (k' : unit → M B) w :
  bind (modify f) k' w = k' tt (f w).
Proof. done. Qed.

Lemma bind_gets (f : World → A) k w :
  bind (gets f) k w = k (f w) w.
Proof. done. Qed.

Lemma bind_ret (a : A) k w : bind (ret a) k w = k a w.
Proof. done. Qed.
End Run.

Lemma add_log_nil w : add_log [] w = w.
Proof. destruct w; unfold add_log; simpl. by rewrite app_nil_r. Qed.

Lemma add_log_app l1 l2 w : add_log l2 (add_log l1 w) = add_log (l1 ++ l2) w.
Proof. unfold add_log; simpl. by rewrite app_assoc. Qed.

Lemma emit_add_log ev w : emit ev w = add_log [ev] w.
Proof. done. Qed.

(** ** Integer literals *)

Lemma is_ascii_rev_app s : ∀ acc,
  Str.is_ascii (String.rev_app s acc) = Str.is_ascii s && Str.is_ascii acc.
Proof.
  induction s as [|c s IH]; intros acc; [done|].
  simpl. rewrite IH. simpl. destruct (nat_of_ascii c <? 128)%nat; simpl.
  - done.
  - apply andb_false_r.
Qed.

Lemma is_ascii_rev s : Str.is_ascii (String.rev s) = Str.is_ascii s.
Proof. unfold String.rev. rewrite is_ascii_rev_app. simpl. apply andb_true_r. Qed.

Lemma is_space_ascii c : Str.is_space c = true → (nat_of_ascii c <? 128)%nat = true.
Proof.
  unfold Str.is_space. intros H. apply Nat.ltb_lt.
  apply orb_true_iff in H as [H|H].
  - apply andb_true_iff in H as [_ H]. apply Nat.leb_le in H. lia.
  - apply Nat.eqb_eq in H. lia.
Qed.

Lemma lstrip_ascii s : Str.is_ascii (Str.lstrip s) = true → Str.is_ascii s = true.
Proof.
  induction s as [|c s IH]; [done|]. simpl.
  destruct (Str.is_space c) eqn:Hc; [|done].
  intros H. by rewrite (is_space_ascii c Hc), IH.
Qed.

Lemma strip_ascii s : Str.is_ascii (Str.strip s) = true → Str.is_ascii s = true.
Proof.
  unfold Str.strip. rewrite is_ascii_rev. intros H.
  apply lstrip_ascii in H. rewrite is_ascii_rev in H. by apply lstrip_ascii.
Qed.

Lemma digit_ascii c d : Str.digit c = Some d → (nat_of_ascii c <? 128)%nat = true.
Proof.
  unfold Str.digit. destruct (_ && _) eqn:H; [|done]. intros _.
  apply andb_true_iff in H as [_ H]. apply Nat.leb_le in H. apply Nat.ltb_lt. lia.
Qed.

Lemma digits_ascii s : ∀ acc after n,
  Str.digits s acc after = Some n → Str.is_ascii s = true.
Proof.
  induction s as [|c s IH]; [done|]. intros acc after n. simpl.
  destruct (Str.digit c) as [d|] eqn:Hd.
  - intros H. by rewrite (digit_ascii c d Hd), (IH _ _ _ H).
  - destruct (Ascii.eqb c "_") eqn:Hc; [|done].
    apply Ascii.eqb_eq in Hc. subst c.
    destruct after; [|done]. simpl. apply IH.
Qed.

(** What [py_int] parses is ASCII and within the digit limit. *)
Lemma py_int_plain s n : Str.py_int s = Some n → Str.plain s = true.
Proof.
  unfold Str.py_int, Str.plain. intros H.
  destruct (String.length s <=? Str.max_str_digits)%nat; [|done].
  rewrite andb_true_r. apply strip_ascii.
  destruct (Str.strip s) as [|c t]; [done|].
  destruct (Ascii.eqb_spec c "-") as [->|Hminus].
  { destruct (Str.digits t 0 false) as [m|] eqn:Ht; [|done].
    simpl. by apply (digits_ascii t 0 false m). }
  destruct (Ascii.eqb_spec c "+") as [->|Hplus].
  { simpl. by apply (digits_ascii t 0 false n). }
  apply (digits_ascii (String c t) 0 false n).
  destruct c as [[] [] [] [] [] [] [] []]; done.
Qed.

Lemma int_of_str_ascii e s n : Str.py_int s = Some n → int_of_str e s = IntValue n.
Proof. intros H. unfold int_of_str. by rewrite (py_int_plain s n H), H. Qed.

(** A variable that holds an integer literal reads as its value. *)
Lemma env_int_parsed e name dflt n :
  int_of_str e (getenv e name dflt) = IntValue n → env_int e name dflt = ret n.
Proof. intros H. unfold env_int. by rewrite H. Qed.

(** ** SMS sessions *)

Lemma sms_session_run e commands : ∀ n w,
  ∃ sent res,
    sms_session e n commands w = (res, add_log (EvSerialWrite <$> sent) w) ∧
    sent `prefix_of` commands ∧
    (commands ≠ [] → sent ≠ []) ∧
    (res = Ret tt ↔ session_ok e n commands = true) ∧
    (res = Ret tt → sent = commands).
Proof.
  induction commands as [|cmd rest IH]; intros n w.
  - exists [], (Ret tt). rewrite add_log_nil. by repeat split.
  - simpl. unfold sms_command, command_ok.
    destruct (IH (S n) (emit (EvSerialWrite cmd) w)) as (sent & res & Hrun & Hpre & Hne & Hok & Hall).
    destruct (modem_reply e n cmd) as [err|response] eqn:Hreply.
    + exists [cmd], (Raise err). unfold bind, modify, raise; simpl.
      repeat split; try done. by apply prefix_cons, prefix_nil.
    + destruct (Str.contains "ERROR" response) eqn:Herr.
      * exists [cmd], (Raise ("Modem command failed: " +:+ response)).
        unfold bind, modify, raise; simpl.
        repeat split; try done. by apply prefix_cons, prefix_nil.
      * exists (cmd :: sent), res.
        unfold bind, modify, ret; simpl.
        rewrite Hrun, emit_add_log, add_log_app.
        repeat split; try done.
        -- by apply prefix_cons.
        -- by apply Hok.
        -- by apply Hok.
        -- intros Hr. by rewrite (Hall Hr).
Qed.

(** ** Notification channel *)

(** The channel always returns; it posts once and, if the post fails,
    runs one SMS session up to the first command that fails. *)
Lemma send_notification_run e message priority w :
  ∃ wire,
    send_notification e message priority w =
      (Ret (primary_ok e message priority || secondary_ok e message),
       add_log (EvNotify message priority ::
                EvHttpPost (ntfy_url e) message priority :: wire) w) ∧
    if primary_ok e message priority then wire = []
    else ∃ sent, wire = EvSerialWrite <$> sent ∧
                 sent `prefix_of` sms_commands e message ∧
                 sent ≠ [] ∧
                 (secondary_ok e message = true → sent = sms_commands e message).
Proof.
  unfold send_notification, primary_ok, secondary_ok.
  set (w2 := emit (EvHttpPost (ntfy_url e) message priority)
                  (emit (EvNotify message priority) w)).
  assert (Hw2 : ∀ l, add_log l w2 =
            add_log (EvNotify message priority ::
                     EvHttpPost (ntfy_url e) message priority :: l) w).
  { intros l. unfold w2. by rewrite !emit_add_log, !add_log_app. }
  assert (Hfallback :
    ∃ sent,
      try_except (sms_session e 0 (sms_commands e message);; ret true)
                 (λ _, ret false) w2 =
        (Ret (session_ok e 0 (sms_commands e message)),
         add_log (EvSerialWrite <$> sent) w2) ∧
      sent `prefix_of` sms_commands e message ∧ sent ≠ [] ∧
      (session_ok e 0 (sms_commands e message) = true → sent = sms_commands e message)).
  { destruct (sms_session_run e (sms_commands e message) 0 w2)
      as (sent & res & Hrun & Hpre & Hne & Hok & Hall).
    exists sent. split; [|split; [done|split; [by apply Hne|]]].
    - unfold try_except, bind. rewrite Hrun.
      destruct res as [[]|err']; unfold ret.
      + by rewrite (proj1 Hok eq_refl).
      + destruct (session_ok e 0 (sms_commands e message)); [|done].
        by specialize (proj2 Hok eq_refl).
    - intros Hs. by apply Hall, Hok. }
  destruct (ntfy_post e (ntfy_url e) message priority) as [err|code] eqn:Hpost.
  - destruct Hfallback as (sent & Hrun & Hrest).
    exists (EvSerialWrite <$> sent). split; [|by exists sent].
    rewrite bind_modify, (try_except_raise _ _ _ err w2) by done.
    by rewrite Hrun, Hw2.
  - unfold raise_for_status.
    destruct ((400 <=? code) && (code <? 600))%Z eqn:Hcode.
    + destruct Hfallback as (sent & Hrun & Hrest).
      exists (EvSerialWrite <$> sent). split; [|by exists sent].
      rewrite bind_modify, (try_except_raise _ _ _ "HTTPError" w2) by done.
      by rewrite Hrun, Hw2.
    + exists []. split; [|done].
      rewrite bind_modify, (try_except_run _ _ _ true w2) by done.
      by rewrite <- Hw2, add_log_nil.
Qed.

Lemma last_char_app s c : last_char (s +:+ String c "") = Some c.
Proof.
  induction s as [|a s IH]; [done|].
  change (String a s +:+ String c "") with (String a (s +:+ String c "")).
  simpl. rewrite IH. by destruct s.
Qed.

Lemma sms_sessions_one e message sent :
  sent `prefix_of` sms_commands e message → sent ≠ [] →
  sms_sessions (EvSerialWrite <$> sent) = 1%nat.
Proof.
  intros [rest Hsplit] Hne. unfold sms_commands in Hsplit. unfold sms_sessions.
  assert (H2 : "AT+CMGS=" +:+ DQUOTE +:+ getenv e "ADMIN_PHONE" "None" +:+ DQUOTE +:+ CR
               ≠ "AT+CMGF=1" +:+ CR) by (intros H; discriminate H).
  assert (H3 : message +:+ CTRL_Z ≠ "AT+CMGF=1" +:+ CR).
  { intros H. apply (f_equal last_char) in H.
    unfold CTRL_Z in H. rewrite last_char_app in H. discriminate H. }
  destruct sent as [|c1 [|c2 [|c3 [|c4 sent]]]]; try done;
    simplify_eq/=; repeat (rewrite ?filter_cons, ?filter_nil; case_decide; simplify_eq/=); done.
Qed.

(** C7. When the HTTP post fails as the code has it (the post raises, or
    its status is a 4xx or 5xx), [send_notification] opens exactly one
    SMS session, returns (it never raises) and its result is [True]
    exactly when the modem took all three commands without an exception
    and without [ERROR] in a reply. *)
Theorem C7_notification_fallback e message priority w :
  primary_ok e message priority = false →
  ∃ sent,
    send_notification e message priority w =
      (Ret (secondary_ok e message),
       add_log (EvNotify message priority ::
                EvHttpPost (ntfy_url e) message priority ::
                (EvSerialWrite <$> sent)) w) ∧
    sent `prefix_of` sms_commands e message ∧
    sms_sessions (EvSerialWrite <$> sent) = 1%nat ∧
    (secondary_ok e message = true → sent = sms_commands e message).
Proof.
  intros Hprimary.
  destruct (send_notification_run e message priority w) as (wire & Hrun & Hwire).
  rewrite Hprimary in Hrun, Hwire. destruct Hwire as (sent & -> & Hpre & Hne & Hall).
  exists sent. repeat split; try done.
  by apply (sms_sessions_one e message).
Qed.

Lemma C7_notification_fallback_witness :
  primary_ok Sample.offline "Power failure detected!" NotificationPriority.HIGH = false ∧
  ∃ sent,
    send_notification Sample.offline "Power failure detected!" NotificationPriority.HIGH
                      Sample.empty_world =
      (Ret (secondary_ok Sample.offline "Power failure detected!"),
       add_log (EvNotify "Power failure detected!" NotificationPriority.HIGH ::
                EvHttpPost (ntfy_url Sample.offline) "Power failure detected!"
                           NotificationPriority.HIGH ::
                (EvSerialWrite <$> sent)) Sample.empty_world) ∧
    sent `prefix_of` sms_commands Sample.offline "Power failure detected!" ∧
    sms_sessions (EvSerialWrite <$> sent) = 1%nat ∧
    (secondary_ok Sample.offline "Power failure detected!" = true →
     sent = sms_commands Sample.offline "Power failure detected!").
Proof.
  split; [reflexivity|].
  apply (C7_notification_fallback Sample.offline); reflexivity.
Defined.

(** The claim C7 fails where the post is answered with a status that is
    neither a 2xx nor one [raise_for_status] raises on: at 304 the
    primary transport has failed in the words of the spec and the modem
    would answer with an error, yet no SMS session is opened and the
    call returns [True]. *)
Lemma C7_counterexample :
  let message := "Power failure detected!" in
  let outcome := send_notification Sample.not_modified message NotificationPriority.HIGH
                                   Sample.empty_world in
  spec_primary_fails Sample.not_modified message NotificationPriority.HIGH = true ∧
  secondary_ok Sample.not_modified message = false ∧
  result_of outcome = Ret true ∧
  log (world_of outcome) =
    [EvNotify message NotificationPriority.HIGH;
     EvHttpPost (ntfy_url Sample.not_modified) message NotificationPriority.HIGH] ∧
  sms_sessions (log (world_of outcome)) = 0%nat.
Proof. vm_compute. done. Qed.

(** ** Footprints of the actions *)

Section Footprints.
Context (F : Footprint).

#[global] Instance within_refl : Reflexive (within F).
Proof.
  intros w. repeat split; try done. exists []. by rewrite app_nil_r.
Qed.

#[global] Instance within_trans : Transitive (within F).
Proof.
  intros w1 w2 w3 (Hf1 & Hd1 & l1 & Hl1 & HP1) (Hf2 & Hd2 & l2 & Hl2 & HP2).
  split; [|split].
  - intros p Hp. by rewrite Hf2, Hf1.
  - intros f Hf. by rewrite Hd2, Hd1.
  - exists (l1 ++ l2). split; [by rewrite Hl2, Hl1, app_assoc|by apply Forall_app].
Qed.

Lemma within_add_log l w : Forall (events F) l → within F w (add_log l w).
Proof. intros Hl. repeat split; try done. by exists l. Qed.

Lemma within_set_fs g w :
  (∀ p, ¬ files F p → g (fs w) !! p = fs w !! p) → within F w (set_fs g w).
Proof. intros Hg. repeat split; try done. exists []. by rewrite app_nil_r. Qed.

Lemma within_set_db g w :
  (∀ f, ¬ records F f → g (db w) !! f = db w !! f) → within F w (set_db g w).
Proof. intros Hg. repeat split; try done. exists []. by rewrite app_nil_r. Qed.

Section Combinators.
Context {A B : Type}.

Lemma stays_ret (a : A) : stays F (ret a).
Proof. intros w. apply within_refl. Qed.

Lemma stays_raise err : stays F (raise (A:=A) err).
Proof. intros w. apply within_refl. Qed.

Lemma stays_gets (g : World → A) : stays F (gets g).
Proof. intros w. apply within_refl. Qed.

Lemma stays_bind (m : M A) (k : A → M B) :
  stays F m → (∀ a, stays F (k a)) → stays F (bind m k).
Proof.
  intros Hm Hk w. unfold bind. specialize (Hm w).
  destruct (m w) as [[a|err] w1]; [|done].
  etrans; [exact Hm|apply (Hk a)].
Qed.

Lemma stays_try_except (m : M A) (h : string → M A) :
  stays F m → (∀ err, stays F (h err)) → stays F (try_except m h).
Proof.
  intros Hm Hh w. unfold try_except. specialize (Hm w).
  destruct (m w) as [[a|err] w1]; [done|].
  etrans; [exact Hm|apply (Hh err)].
Qed.

Lemma stays_finally (m : M A) (c : M unit) :
  stays F m → stays F c → stays F (finally m c).
Proof.
  intros Hm Hc w. unfold finally. specialize (Hm w).
  destruct (m w) as [r w1]. specialize (Hc w1).
  destruct (c w1) as [[[]|err] w2]; by etrans.
Qed.

Lemma stays_for_each (l : list A) (body : A → M unit) :
  (∀ x, x ∈ l → stays F (body x)) → stays F (for_each l body).
Proof.
  induction l as [|x l IH]; intros Hbody; simpl.
  - intros w. apply within_refl.
  - intros w. unfold bind. pose proof (Hbody x (list_elem_of_here _ _) w) as Hx.
    destruct (body x w) as [[[]|err] w1]; [|done].
    etrans; [exact Hx|]. apply IH. intros y Hy. apply Hbody. by right.
Qed.
End Combinators.

Lemma stays_read_bytes p : stays F (read_bytes p).
Proof. intros w. unfold read_bytes. destruct (fs w !! p); apply within_refl. Qed.

Lemma stays_emit ev : events F ev → stays F (modify (emit ev)).
Proof. intros Hev w. apply (within_add_log [ev]). by constructor. Qed.

Lemma stays_set_camera c : stays F (modify (set_camera c)).
Proof. intros w. repeat split; try done. exists []. by rewrite app_nil_r. Qed.

Lemma stays_set_processed g : stays F (modify (set_processed g)).
Proof. intros w. repeat split; try done. exists []. by rewrite app_nil_r. Qed.

Lemma stays_write_bytes p data : files F p → stays F (write_bytes p data).
Proof.
  intros Hp w. apply within_set_fs. intros q Hq.
  apply lookup_insert_ne. by intros ->.
Qed.

Lemma stays_unlink p : files F p → stays F (unlink p).
Proof.
  intros Hp. apply stays_bind; [apply stays_read_bytes|]. intros _ w.
  apply within_set_fs. intros q Hq. apply lookup_delete_ne. by intros ->.
Qed.

Lemma stays_rename src dst : files F src → files F dst → stays F (rename src dst).
Proof.
  intros Hsrc Hdst w. unfold rename. destruct (fs w !! src) as [data|]; [|done].
  apply within_set_fs. intros q Hq.
  rewrite lookup_insert_ne by (by intros ->).
  apply lookup_delete_ne. by intros ->.
Qed.

Lemma stays_insert_or_replace f r : records F f → stays F (insert_or_replace f r).
Proof.
  intros Hf w. apply within_set_db. intros g Hg.
  apply lookup_insert_ne. by intros ->.
Qed.

Lemma stays_alter (g : FileRecord → FileRecord) f :
  records F f → stays F (modify (set_db (alter g f))).
Proof.
  intros Hf w. apply within_set_db. intros f' Hf'.
  apply lookup_alter_ne. by intros ->.
Qed.

Lemma stays_env_int e name dflt : stays F (env_int e name dflt).
Proof. unfold env_int. destruct (int_of_str _ _); [apply stays_ret|apply stays_raise]. Qed.

Lemma stays_send_notification e message priority :
  events F (EvNotify message priority) →
  (∀ ev, is_wire ev = true → events F ev) →
  stays F (send_notification e message priority).
Proof.
  intros Hn Hwire w.
  destruct (send_notification_run e message priority w) as (wire & -> & Hw).
  apply within_add_log. constructor; [done|]. constructor; [by apply Hwire|].
  destruct (primary_ok e message priority).
  - subst. constructor.
  - destruct Hw as (sent & -> & _). apply Forall_fmap, Forall_forall.
    intros cmd _. by apply Hwire.
Qed.
End Footprints.

Lemma within_weaken (F G : Footprint) w w' :
  (∀ p, files F p → files G p) →
  (∀ f, records F f → records G f) →
  (∀ ev, events F ev → events G ev) →
  within F w w' → within G w w'.
Proof.
  intros Hf Hr He (Hfs & Hdb & new & Hlog & Hnew). split; [|split].
  - intros p Hp. apply Hfs. naive_solver.
  - intros f Hp. apply Hdb. naive_solver.
  - exists new. split; [done|]. eapply Forall_impl; [exact Hnew|done].
Qed.

Lemma stays_weaken {A} (F G : Footprint) (m : M A) :
  (∀ p, files F p → files G p) →
  (∀ f, records F f → records G f) →
  (∀ ev, events F ev → events G ev) →
  stays F m → stays G m.
Proof. intros Hf Hr He Hm w. by apply (within_weaken F G). Qed.

(** One step of a footprint proof: the lemma of the action at the head,
    or of the construct it is built with. *)
Ltac stays_op := fail.

Ltac stays_step :=
  first
    [ stays_op
    | apply stays_ret | apply stays_raise | apply stays_gets
    | apply stays_read_bytes | apply stays_env_int
    | apply stays_set_camera | apply stays_set_processed
    | apply stays_send_notification; [|intros ? ?]
    | apply stays_emit | apply stays_write_bytes | apply stays_unlink
    | apply stays_rename | apply stays_insert_or_replace | apply stays_alter
    | apply stays_bind; [|intros ?]
    | apply stays_try_except; [|intros ?]
    | apply stays_finally
    | match goal with
      | |- stays _ (if ?b then _ else _) => destruct b
      | |- stays _ (match ?x with _ => _ end) => destruct x
      end ].

Ltac stays_go := repeat stays_step.

Lemma stays_verify_file F p original_size : stays F (verify_file p original_size).
Proof. unfold verify_file, path_exists, stat_size. stays_go. Qed.

Lemma is_wire_notice ev : is_wire ev = true → is_notice ev = true.
Proof. by destruct ev. Qed.

Lemma stays_upload_to_onedrive e filepath :
  stays (upload_footprint filepath) (upload_to_onedrive e filepath).
Proof.
  unfold upload_to_onedrive, sink_upload, path_exists.
  fold (scratch_path filepath). fold (fallback_path filepath).
  stays_go; simpl; eauto using is_wire_notice, stays_verify_file.
  all: try (right; unfold is_upload_of; eauto).
Qed.

Ltac stays_op ::=
  match goal with
  | |- stays _ (upload_to_onedrive _ _) =>
      eapply stays_weaken; [| | |apply stays_upload_to_onedrive]
  end.

(** ** Paths *)

Lemma length_append s1 s2 :
  String.length (s1 +:+ s2) = (String.length s1 + String.length s2)%nat.
Proof.
  induction s1 as [|c s1 IH]; [done|].
  change (String c s1 +:+ s2) with (String c (s1 +:+ s2)). simpl. by rewrite IH.
Qed.

Lemma scratch_path_ne filepath : scratch_path filepath ≠ filepath.
Proof.
  destruct filepath as [d name]. unfold scratch_path. simpl.
  intros [= _ Hname]. apply (f_equal String.length) in Hname.
  rewrite length_append in Hname. simpl in Hname. lia.
Qed.

Lemma scratch_fallback_ne filepath : scratch_path filepath ≠ fallback_path filepath.
Proof. done. Qed.

(** ** The upload step *)

Lemma copy_passes_verify e data :
  (truthy (Some (Str.len data)) &&
   negb (bool_decide (Some (Str.len (disk_write e data)) = Some (Str.len data))))
  = negb (copy_passes e data).
Proof.
  unfold copy_passes, truthy.
  destruct (Z.eqb_spec (Str.len data) 0) as [->|Hne]; simpl.
  - done.
  - destruct (Z.eqb_spec (Str.len (disk_write e data)) (Str.len data)) as [->|Hne'].
    + by rewrite bool_decide_eq_true_2.
    + rewrite bool_decide_eq_false_2; [done|]. by intros [= ?].
Qed.

(** Running the file system primitives. *)

Lemma read_bytes_run p data w :
  fs w !! p = Some data → read_bytes p w = (Ret data, w).
Proof. unfold read_bytes. by intros ->. Qed.

Lemma read_bytes_missing p w :
  fs w !! p = None →
  read_bytes p w =
    (Raise ("[Errno 2] No such file or directory: '" +:+ path_str p +:+ "'"), w).
Proof. unfold read_bytes. by intros ->. Qed.

Lemma stat_size_run p data w :
  fs w !! p = Some data → stat_size p w = (Ret (Str.len data), w).
Proof. intros H. unfold stat_size. by erewrite bind_step; [|by apply read_bytes_run|]. Qed.

Lemma unlink_run p data w :
  fs w !! p = Some data → unlink p w = (Ret tt, set_fs (delete p) w).
Proof. intros H. unfold unlink. by erewrite bind_step; [|by apply read_bytes_run|]. Qed.

Lemma rename_run src dst data w :
  fs w !! src = Some data →
  rename src dst w = (Ret tt, set_fs (λ files, <[dst := data]> (delete src files)) w).
Proof. intros H. unfold rename. by rewrite H. Qed.

Lemma rename_missing src dst w :
  fs w !! src = None →
  rename src dst w =
    (Raise ("[Errno 2] No such file or directory: '" +:+ path_str src +:+
            "' -> '" +:+ path_str dst +:+ "'"), w).
Proof. intros H. unfold rename. by rewrite H. Qed.

Lemma path_exists_run p w :
  path_exists p w = (Ret (bool_decide (is_Some (fs w !! p))), w).
Proof. done. Qed.

Lemma verify_file_run p data original_size w :
  fs w !! p = Some data →
  verify_file p original_size w =
    (Ret (negb (truthy original_size &&
                negb (bool_decide (Some (Str.len data) = original_size)))), w).
Proof.
  intros H. unfold verify_file.
  eapply bind_step; [apply path_exists_run|].
  rewrite H, bool_decide_eq_true_2 by done. simpl.
  eapply bind_step; [by apply stat_size_run|].
  by destruct (truthy original_size && _).
Qed.

Lemma verify_file_missing p original_size w :
  fs w !! p = None → verify_file p original_size w = (Ret false, w).
Proof.
  intros H. unfold verify_file.
  eapply bind_step; [apply path_exists_run|].
  rewrite H, bool_decide_eq_false_2; [done|]. by intros [? [=]].
Qed.

Lemma sink_upload_accepted e remote body w :
  onedrive_upload e remote body = None →
  sink_upload e remote body w = (Ret tt, emit (EvSinkUpload remote body) w).
Proof. intros H. unfold sink_upload. rewrite bind_modify. by rewrite H. Qed.

Lemma sink_upload_raises e remote body err w :
  onedrive_upload e remote body = Some err →
  sink_upload e remote body w = (Raise err, emit (EvSinkUpload remote body) w).
Proof. intros H. unfold sink_upload. rewrite bind_modify. by rewrite H. Qed.

(** One step of a run: the action at the head of a [bind] is run by its
    lemma, the lookups it needs being read off the world. *)
Ltac fs_lookup := simpl; simplify_map_eq; done.

Ltac run_head :=
  first
    [ eapply read_bytes_run; fs_lookup
    | eapply stat_size_run; fs_lookup
    | eapply unlink_run; fs_lookup
    | eapply rename_run; fs_lookup
    | eapply verify_file_run; fs_lookup
    | apply path_exists_run
    | reflexivity ].

Ltac run_step := eapply bind_step; [run_head|].

Lemma upload_to_onedrive_accepted e filepath data w :
  fs w !! filepath = Some data →
  UploadAccepted e (path_name filepath) data →
  upload_to_onedrive e filepath w =
    (Ret true,
     set_fs (λ files, delete (scratch_path filepath) (delete filepath files))
       (add_log [EvUploadCall filepath;
                 EvSinkUpload (remote_path (path_name filepath)) (disk_write e data)] w)).
Proof.
  intros Hfile [Hcopy Hsink].
  pose proof (scratch_path_ne filepath) as Hne.
  unfold upload_to_onedrive. fold (scratch_path filepath).
  etrans.
  { run_step. eapply finally_step.
    - apply try_except_run.
      unfold write_bytes. do 6 run_step.
      rewrite copy_passes_verify, Hcopy. simpl.
      do 2 run_step.
      eapply bind_step; [by apply sink_upload_accepted|].
      run_step. reflexivity.
    - eapply try_except_run. run_step.
      rewrite bool_decide_eq_true_2 by (simpl; simplify_map_eq; done).
      eapply unlink_run. fs_lookup. }
  unfold set_fs, add_log, emit. simpl. f_equal. f_equal; [|by rewrite <- app_assoc].
  apply map_eq. intros p.
  destruct (decide (p = scratch_path filepath)) as [->|Hp].
  - by rewrite !lookup_delete_eq.
  - rewrite !(lookup_delete_ne _ (scratch_path filepath)) by done.
    destruct (decide (p = filepath)) as [->|Hp'].
    + by rewrite !lookup_delete_eq.
    + rewrite !(lookup_delete_ne _ filepath) by done.
      by rewrite !lookup_insert_ne.
Qed.

Lemma send_notification_effect e message priority w :
  ∃ delivered wire,
    send_notification e message priority w =
      (Ret delivered, add_log (EvNotify message priority :: wire) w) ∧
    Forall (λ ev, is_wire ev = true) wire.
Proof.
  destruct (send_notification_run e message priority w) as (wire & Hrun & Hwire).
  eexists _, _. split; [exact Hrun|]. constructor; [done|].
  destruct (primary_ok e message priority).
  - subst. constructor.
  - destruct Hwire as (sent & -> & _). apply Forall_fmap, Forall_forall. by intros cmd _.
Qed.

Lemma notifications_app l1 l2 :
  notifications (l1 ++ l2) = notifications l1 ++ notifications l2.
Proof. unfold notifications. apply omap_app. Qed.

Lemma notifications_wire wire :
  Forall (λ ev, is_wire ev = true) wire → notifications wire = [].
Proof.
  induction 1 as [|ev wire Hev _ IH]; [done|].
  unfold notifications in *. by destruct ev.
Qed.

Lemma upload_to_onedrive_failed e filepath data err w :
  fs w !! filepath = Some data →
  UploadFails e (path_name filepath) data err →
  ∃ wire,
    Forall (λ ev, is_wire ev = true) wire ∧
    upload_to_onedrive e filepath w =
      (Ret false,
       set_fs (λ files, <[fallback_path filepath := data]>
                          (delete (scratch_path filepath) (delete filepath files)))
         (add_log ((EvUploadCall filepath :: sink_attempt e filepath data) ++
                   EvNotify ("OneDrive upload failed: " +:+ err)
                            NotificationPriority.MEDIUM :: wire) w)).
Proof.
  intros Hfile Hfails.
  pose proof (scratch_path_ne filepath) as Hne.
  pose proof (scratch_fallback_ne filepath) as Hne'.
  set (w1 := set_fs <[scratch_path filepath := disk_write e data]>
               (set_fs <[scratch_path filepath := ""]> (emit (EvUploadCall filepath) w))).
  set (w2 := add_log (sink_attempt e filepath data) w1).
  assert (Hbody :
    bind (read_bytes filepath) (λ _,
      bind (write_bytes (scratch_path filepath) "") (λ _,
      bind (read_bytes filepath) (λ data,
      bind (write_bytes (scratch_path filepath) (disk_write e data)) (λ _,
      bind (stat_size filepath) (λ original_size,
      bind (verify_file (scratch_path filepath) (Some original_size)) (λ verified,
      bind (if negb verified then raise "File verification failed after copy" else ret tt) (λ _,
      bind (read_bytes (scratch_path filepath)) (λ body,
      bind (sink_upload e (remote_path (path_name filepath)) body) (λ _,
      bind (unlink filepath) (λ _, ret true))))))))))
      (emit (EvUploadCall filepath) w) = (Raise err, w2)).
  { unfold write_bytes. do 6 run_step. rewrite copy_passes_verify. fold w1.
    unfold w2, sink_attempt.
    destruct Hfails as [Hcopy|err Hcopy Hsink]; rewrite Hcopy; simpl.
    - by rewrite add_log_nil.
    - do 2 run_step. eapply bind_raise. by apply sink_upload_raises. }
  destruct (send_notification_effect e ("OneDrive upload failed: " +:+ err)
              NotificationPriority.MEDIUM w2) as (delivered & wire & Hsend & Hwire).
  exists wire. split; [done|].
  unfold upload_to_onedrive. fold (scratch_path filepath). fold (fallback_path filepath).
  etrans.
  { run_step. eapply finally_step.
    - eapply try_catch; [exact Hbody|].
      eapply bind_step; [exact Hsend|].
      eapply bind_step; [|reflexivity].
      apply try_except_run. eapply rename_run.
      unfold w2, w1. fs_lookup.
    - eapply try_except_run. run_step.
      rewrite bool_decide_eq_true_2 by (unfold w2, w1; simpl; simplify_map_eq; done).
      eapply unlink_run. unfold w2, w1. fs_lookup. }
  unfold w2, w1, set_fs, add_log, emit. simpl. f_equal. f_equal.
  - apply map_eq. intros p.
    destruct (decide (p = scratch_path filepath)) as [->|Hp].
    + rewrite lookup_delete_eq, lookup_insert_ne by done. by rewrite lookup_delete_eq.
    + rewrite lookup_delete_ne by done.
      destruct (decide (p = fallback_path filepath)) as [->|Hp'].
      * by rewrite !lookup_insert_eq.
      * rewrite !(lookup_insert_ne _ (fallback_path filepath)) by done.
        rewrite (lookup_delete_ne _ (scratch_path filepath)) by done.
        destruct (decide (p = filepath)) as [->|Hp''].
        -- by rewrite !lookup_delete_eq.
        -- rewrite !(lookup_delete_ne _ filepath) by done. by rewrite !lookup_insert_ne.
  - by rewrite <- !app_assoc.
Qed.

(** ** Processing a downloaded file *)

Lemma select_success_undelivered w filename :
  undelivered w filename →
  select_success filename w = (Ret false, w).
Proof.
  intros Hun. unfold select_success, gets. f_equal. f_equal.
  destruct (db w !! filename) as [r|] eqn:Hr; [|done].
  apply bool_decide_eq_false_2. by apply Hun.
Qed.

Lemma select_success_delivered w filename r :
  db w !! filename = Some r → upload_status r = Success →
  select_success filename w = (Ret true, w).
Proof.
  intros Hr Hs. unfold select_success, gets. rewrite Hr.
  by rewrite bool_decide_eq_true_2.
Qed.

Lemma calculate_checksum_run e p data w :
  fs w !! p = Some data →
  calculate_checksum e p w = (Ret (sha256_hexdigest e data), w).
Proof. intros H. unfold calculate_checksum. by eapply bind_step; [by apply read_bytes_run|]. Qed.

(** Once the store marks the file as delivered, processing it again
    changes nothing. *)
Lemma handle_file_processing_delivered e filename p data r w :
  fs w !! p = Some data →
  db w !! filename = Some r → upload_status r = Success →
  handle_file_processing e filename p w = (Ret true, w).
Proof.
  intros Hfile Hr Hs. unfold handle_file_processing.
  apply try_except_run.
  eapply bind_step; [by apply calculate_checksum_run|].
  run_step.
  by eapply bind_step; [by eapply select_success_delivered|].
Qed.

Lemma handle_file_processing_accepted e filename p data w :
  fs w !! p = Some data →
  undelivered w filename →
  UploadAccepted e (path_name p) data →
  handle_file_processing e filename p w =
    (Ret true,
     set_db <[filename := ingest_record e data Success]>
       (set_fs (λ files, delete (scratch_path p) (delete p files))
          (add_log [EvUploadCall p;
                    EvSinkUpload (remote_path (path_name p)) (disk_write e data)] w))).
Proof.
  intros Hfile Hun Hok. unfold handle_file_processing.
  apply try_except_run.
  eapply bind_step; [by apply calculate_checksum_run|].
  run_step.
  eapply bind_step; [by apply select_success_undelivered|].
  unfold insert_or_replace, update_status. run_step.
  eapply bind_step; [by eapply upload_to_onedrive_accepted|].
  run_step. unfold ret, set_db, set_fs, add_log. simpl. f_equal. f_equal.
  apply map_eq. intros f. destruct (decide (f = filename)) as [->|Hf].
  - by rewrite lookup_alter_eq, !lookup_insert_eq.
  - by rewrite lookup_alter_ne, !lookup_insert_ne.
Qed.

(** C1. A fresh delivery whose upload fails does not end as backed up.
    [upload_to_onedrive] has already moved the payload to the backup
    directory under the name of the local copy, so the move to
    [BackupDir/<filename>] finds no file and raises: the call returns
    [False], the record stays [pending], nothing is written to
    [BackupDir/<filename>], and the notifications are the MEDIUM one of
    the upload step and a HIGH one about the failed processing. *)
Theorem C1_failed_upload_ends_in_error e filename p data err w :
  path_dir p = TempDir →
  fs w !! p = Some data →
  undelivered w filename →
  UploadFails e (path_name p) data err →
  let outcome := handle_file_processing e filename p w in
  result_of outcome = Ret false ∧
  db (world_of outcome) !! filename = Some (ingest_record e data Pending) ∧
  fs (world_of outcome) !! p = None ∧
  fs (world_of outcome) !! fallback_path p = Some data ∧
  (path_name p ≠ filename →
   fs (world_of outcome) !! mkPath BackupDir filename = fs w !! mkPath BackupDir filename) ∧
  ∃ new,
    log (world_of outcome) = log w ++ new ∧
    notifications new =
      [ ("OneDrive upload failed: " +:+ err, NotificationPriority.MEDIUM);
        ("File processing failed for " +:+ filename +:+ ": " +:+
         "[Errno 2] No such file or directory: '" +:+ path_str p +:+
         "' -> '" +:+ path_str (mkPath BackupDir filename) +:+ "'",
         NotificationPriority.HIGH) ].
Proof.
  intros Hdir Hfile Hun Hfails outcome.
  pose proof (scratch_path_ne p) as Hne.
  assert (Hfb : fallback_path p ≠ p).
  { destruct p as [d n]. simpl in Hdir. subst d. done. }
  set (w1 := set_db <[filename := ingest_record e data Pending]> w).
  destruct (upload_to_onedrive_failed e p data err w1 Hfile Hfails)
    as (wire & Hwire & Hupload).
  set (w2 := set_fs (λ files, <[fallback_path p := data]>
                                (delete (scratch_path p) (delete p files)))
               (add_log ((EvUploadCall p :: sink_attempt e p data) ++
                         EvNotify ("OneDrive upload failed: " +:+ err)
                                  NotificationPriority.MEDIUM :: wire) w1)) in *.
  assert (Hgone : fs w2 !! p = None).
  { unfold w2. simpl. rewrite lookup_insert_ne by done.
    rewrite lookup_delete_ne by done. apply lookup_delete_eq. }
  set (msg := "File processing failed for " +:+ filename +:+ ": " +:+
              "[Errno 2] No such file or directory: '" +:+ path_str p +:+
              "' -> '" +:+ path_str (mkPath BackupDir filename) +:+ "'").
  destruct (send_notification_effect e msg NotificationPriority.HIGH w2)
    as (delivered & wire' & Hsend & Hwire').
  assert (Hrun : outcome =
    (Ret false, add_log (EvNotify msg NotificationPriority.HIGH :: wire') w2)).
  { unfold outcome, handle_file_processing.
    eapply try_catch.
    - eapply bind_step; [by apply calculate_checksum_run|].
      run_step.
      eapply bind_step; [by apply select_success_undelivered|].
      unfold insert_or_replace. run_step.
      eapply bind_step; [exact Hupload|].
      eapply bind_raise. by apply rename_missing.
    - by eapply bind_step; [exact Hsend|]. }
  rewrite Hrun. simpl. repeat split.
  - apply lookup_insert_eq.
  - rewrite lookup_insert_ne by done.
    rewrite lookup_delete_ne by done. apply lookup_delete_eq.
  - apply lookup_insert_eq.
  - intros Hname.
    assert (mkPath BackupDir filename ≠ fallback_path p).
    { unfold fallback_path. by intros [= ?]. }
    assert (mkPath BackupDir filename ≠ scratch_path p) by done.
    assert (mkPath BackupDir filename ≠ p).
    { destruct p as [d n]. simpl in Hdir. by subst d. }
    by rewrite lookup_insert_ne, !lookup_delete_ne.
  - eexists. split; [by rewrite <- !app_assoc|].
    rewrite !notifications_app. simpl.
    unfold sink_attempt. destruct (copy_passes e data); simpl;
      by rewrite (notifications_wire wire), (notifications_wire wire').
Qed.

Lemma C1_failed_upload_ends_in_error_witness :
  let p := local_path Sample.offline "IMG_02.JPG" in
  let w := mkWorld {[ p := "jpeg bytes" ]} ∅ true ∅ [] in
  let outcome := handle_file_processing Sample.offline "IMG_02.JPG" p w in
  result_of outcome = Ret false ∧
  db (world_of outcome) !! "IMG_02.JPG" =
    Some (ingest_record Sample.offline "jpeg bytes" Pending) ∧
  fs (world_of outcome) !! p = None ∧
  fs (world_of outcome) !! fallback_path p = Some "jpeg bytes" ∧
  (path_name p ≠ "IMG_02.JPG" →
   fs (world_of outcome) !! mkPath BackupDir "IMG_02.JPG" =
   fs w !! mkPath BackupDir "IMG_02.JPG") ∧
  ∃ new,
    log (world_of outcome) = log w ++ new ∧
    notifications new =
      [ ("OneDrive upload failed: " +:+ "timed out", NotificationPriority.MEDIUM);
        ("File processing failed for " +:+ "IMG_02.JPG" +:+ ": " +:+
         "[Errno 2] No such file or directory: '" +:+ path_str p +:+
         "' -> '" +:+ path_str (mkPath BackupDir "IMG_02.JPG") +:+ "'",
         NotificationPriority.HIGH) ].
Proof.
  intros p w.
  apply (C1_failed_upload_ends_in_error Sample.offline "IMG_02.JPG" p "jpeg bytes" "timed out" w).
  - reflexivity.
  - reflexivity.
  - intros r Hr. vm_compute in Hr. discriminate Hr.
  - apply SinkRaises; reflexivity.
Defined.

(** At the failing input of C1, evaluated: the payload is absent from
    [BackupDir/IMG_02.JPG] and the record is [pending]. *)
Example C1_failing_input :
  let p := local_path Sample.offline "IMG_02.JPG" in
  let w := mkWorld {[ p := "jpeg bytes" ]} ∅ true ∅ [] in
  let outcome := handle_file_processing Sample.offline "IMG_02.JPG" p w in
  result_of outcome = Ret false ∧
  fs (world_of outcome) !! mkPath BackupDir "IMG_02.JPG" = None ∧
  upload_status <$> db (world_of outcome) !! "IMG_02.JPG" = Some Pending ∧
  notifications (log (world_of outcome)) =
    [ ("OneDrive upload failed: timed out", 3);
      ("File processing failed for IMG_02.JPG: [Errno 2] No such file or directory: '/tmp/timelapse_monitor/timelapse_20240101_000000_IMG_02.JPG' -> '/opt/timelapse/backup/IMG_02.JPG'", 4) ].
Proof. vm_compute. done. Qed.

(** C4. A first delivery whose upload is accepted leaves one row for the
    file, marked [success], after one call to the sink; delivering the
    file again, from a second local copy, returns [True] and leaves the
    whole world as it was: no write to the store, no call to the sink. *)
Theorem C4_second_delivery_is_noop e e' filename p p' data w :
  fs w !! p = Some data →
  undelivered w filename →
  UploadAccepted e (path_name p) data →
  let first := handle_file_processing e filename p w in
  let again := set_fs <[p' := data]> (world_of first) in
  result_of first = Ret true ∧
  db (world_of first) !! filename = Some (ingest_record e data Success) ∧
  log (world_of first) =
    log w ++ [EvUploadCall p;
              EvSinkUpload (remote_path (path_name p)) (disk_write e data)] ∧
  handle_file_processing e' filename p' again = (Ret true, again).
Proof.
  intros Hfile Hun Hok first again. unfold again, first.
  rewrite (handle_file_processing_accepted e filename p data w) by done.
  simpl. repeat split.
  - apply lookup_insert_eq.
  - eapply (handle_file_processing_delivered e' filename p' data).
    + simpl. apply lookup_insert_eq.
    + simpl. apply lookup_insert_eq.
    + done.
Qed.

Lemma C4_second_delivery_is_noop_witness :
  let p := local_path Sample.online "IMG_01.JPG" in
  let p' := mkPath TempDir "timelapse_20240101_000100_IMG_01.JPG" in
  let w := mkWorld {[ p := "jpeg bytes" ]} ∅ true ∅ [] in
  let first := handle_file_processing Sample.online "IMG_01.JPG" p w in
  let again := set_fs <[p' := "jpeg bytes"]> (world_of first) in
  result_of first = Ret true ∧
  db (world_of first) !! "IMG_01.JPG" =
    Some (ingest_record Sample.online "jpeg bytes" Success) ∧
  log (world_of first) =
    log w ++ [EvUploadCall p;
              EvSinkUpload (remote_path (path_name p))
                           (disk_write Sample.online "jpeg bytes")] ∧
  handle_file_processing Sample.offline "IMG_01.JPG" p' again = (Ret true, again).
Proof.
  intros p p' w.
  apply (C4_second_delivery_is_noop Sample.online Sample.offline "IMG_01.JPG" p p'
           "jpeg bytes" w).
  - reflexivity.
  - intros r Hr. vm_compute in Hr. discriminate Hr.
  - split; reflexivity.
Defined.

(** ** Verification of a copy *)

(** What [verify_file] answers, in full: the file must exist, and a size
    that is given and not zero must be the size on disk. *)
Lemma verify_file_spec p original_size w :
  ∃ ok,
    verify_file p original_size w = (Ret ok, w) ∧
    (ok = true ↔
     ∃ data, fs w !! p = Some data ∧
             (original_size = None ∨ original_size = Some 0 ∨
              original_size = Some (Str.len data))).
Proof.
  destruct (fs w !! p) as [data|] eqn:Hfile.
  - eexists. split; [by apply verify_file_run|].
    destruct original_size as [n|]; simpl.
    + destruct (Z.eqb_spec n 0) as [->|Hn]; simpl.
      * split; [|done]. intros _. exists data. auto.
      * rewrite negb_involutive, bool_decide_eq_true. split.
        -- intros [= <-]. exists data. auto.
        -- intros (data' & [= <-] & [?|[[= ?]|?]]); congruence.
    + split; [|done]. intros _. exists data. auto.
  - exists false. split; [by apply verify_file_missing|].
    split; [done|]. by intros (data & ? & _).
Qed.

(** C8. A size of zero is not checked: for a file that exists,
    [verify_file] with [original_size = 0] answers [True] whatever the
    size on disk, where the claim has it answer [False] unless the file
    is empty. *)
Theorem C8_verify_file_ignores_zero_size p data w :
  fs w !! p = Some data →
  verify_file p (Some 0) w = (Ret true, w).
Proof. intros Hfile. by rewrite (verify_file_run p data). Qed.

Lemma C8_verify_file_ignores_zero_size_witness :
  let p := mkPath TempDir "upload_IMG_01.JPG" in
  let w := mkWorld {[ p := "hello" ]} ∅ false ∅ [] in
  Str.len "hello" = 5 ∧ verify_file p (Some 0) w = (Ret true, w).
Proof.
  intros p w. split; [reflexivity|].
  apply (C8_verify_file_ignores_zero_size p "hello" w). reflexivity.
Defined.

(** ** Health supervisor *)

Lemma env_int_default e name dflt n :
  environ e !! name = None → Str.py_int dflt = Some n →
  ∀ w, env_int e name dflt w = (Ret n, w).
Proof.
  intros He Hn w. unfold env_int, getenv. rewrite He. simpl.
  by rewrite (int_of_str_ascii e dflt n Hn).
Qed.

(** C9. With the default thresholds every sample at 10% used or more
    sends the CRITICAL disk notification, and only that one: the
    warning threshold, 25, is never consulted. *)
Theorem C9_default_thresholds_always_critical e w :
  environ e !! "DISK_CRITICAL_THRESHOLD" = None →
  Qle_bool 10 (disk_usage_percent e) = true →
  ∃ new,
    check_disk e w = (Ret tt, add_log new w) ∧
    notifications new =
      [ ("Critical: Disk space low (" +:+ float_str e (disk_usage_percent e) +:+ "% used)",
         NotificationPriority.CRITICAL) ].
Proof.
  intros Henv Hpct. unfold check_disk, at_least.
  destruct (send_notification_effect e
              ("Critical: Disk space low (" +:+ float_str e (disk_usage_percent e) +:+ "% used)")
              NotificationPriority.CRITICAL w) as (delivered & wire & Hsend & Hwire).
  eexists. split.
  - eapply bind_step.
    { eapply bind_step; [by apply (env_int_default e _ _ 10)|]. reflexivity. }
    change (inject_Z 10) with (10 : Q). rewrite Hpct.
    eapply bind_step; [exact Hsend|]. reflexivity.
  - simpl. by rewrite (notifications_wire wire).
Qed.

Lemma C9_default_thresholds_always_critical_witness :
  ∃ new,
    check_disk Sample.offline Sample.empty_world = (Ret tt, add_log new Sample.empty_world) ∧
    notifications new =
      [ ("Critical: Disk space low (" +:+
         float_str Sample.offline (disk_usage_percent Sample.offline) +:+ "% used)",
         NotificationPriority.CRITICAL) ].
Proof.
  apply (C9_default_thresholds_always_critical Sample.offline Sample.empty_world);
    reflexivity.
Defined.

(** The samples of C9, evaluated: at 76% used and at 50% used the
    supervisor sends the CRITICAL notification. *)
Example C9_failing_inputs :
  disk_usage_percent Sample.offline = 76%Q ∧
  notifications (log (world_of (check_disk Sample.offline Sample.empty_world))) =
    [ ("Critical: Disk space low (76.0% used)", NotificationPriority.CRITICAL) ] ∧
  disk_usage_percent Sample.online = 50%Q ∧
  notifications (log (world_of (check_disk Sample.online Sample.empty_world))) =
    [ ("Critical: Disk space low (50.0% used)", NotificationPriority.CRITICAL) ].
Proof. vm_compute. done. Qed.

(** ** Backlog resync *)

Lemma elem_of_backup_rows (table : gmap string FileRecord) g n :
  (g, n) ∈ backup_rows table ↔
  ∃ r, table !! g = Some r ∧ upload_status r = Backup ∧ retries r = n.
Proof.
  unfold backup_rows. rewrite list_elem_of_fmap. split.
  - intros ([g' r] & [= -> ->] & Hin).
    apply elem_of_map_to_list, map_lookup_filter_Some in Hin as [Hr Hs].
    by exists r.
  - intros (r & Hr & Hs & <-). exists (g, r). split; [done|].
    by apply elem_of_map_to_list, map_lookup_filter_Some.
Qed.

Lemma NoDup_backup_rows (table : gmap string FileRecord) :
  NoDup (backup_rows table).*1.
Proof.
  unfold backup_rows. rewrite <- list_fmap_compose.
  apply (NoDup_fst_map_to_list (filter (λ kr, upload_status kr.2 = Backup) table)).
Qed.

Lemma stays_resync_one e g n :
  stays (resync_footprint g) (resync_one e (g, n)).
Proof.
  unfold resync_one, path_exists, update_status, increment_retries. simpl.
  stays_go; simpl; eauto using is_wire_notice; naive_solver.
Qed.


Lemma is_upload_of_other f g ev :
  g ≠ f → is_upload_of (mkPath BackupDir g) ev → ¬ is_upload_of (mkPath BackupDir f) ev.
Proof.
  intros Hne [->|[body ->]] [Heq|[body' Heq]]; simplify_eq/=.
Qed.

Lemma is_notice_not_upload p ev : is_notice ev = true → ¬ is_upload_of p ev.
Proof. intros Hn [->|[body ->]]; done. Qed.

(** A run over rows that are not about [f] stays away from [f]. *)
Lemma stays_other_rows e f rows :
  stays (other_footprint f)
    (try_except (for_each (other_rows f rows) (resync_one e)) (backup_error_handler e)).
Proof.
  apply stays_try_except.
  - apply stays_for_each. intros [g n] Hin.
    apply list_elem_of_filter in Hin as [Hg _]. simpl in Hg.
    eapply stays_weaken; [| | |apply stays_resync_one]; simpl.
    + intros p Hp. by exists g.
    + by intros ? ->.
    + intros ev [?|?]; [by left|right; by exists g].
  - intros err. unfold backup_error_handler.
    stays_go; simpl; eauto using is_wire_notice.
Qed.

(** What staying away from [f] means for [f]. *)
Lemma other_footprint_frame f w w' :
  within (other_footprint f) w w' →
  db w' !! f = db w !! f ∧
  fs w' !! mkPath BackupDir f = fs w !! mkPath BackupDir f ∧
  ∃ new, log w' = log w ++ new ∧
         Forall (λ ev, ¬ is_upload_of (mkPath BackupDir f) ev) new.
Proof.
  intros (Hfs & Hdb & new & Hlog & Hnew). split; [|split].
  - apply Hdb. simpl. naive_solver.
  - apply Hfs. simpl. unfold scratch_path, fallback_path. simpl.
    intros (g & Hg & [Hp|[Hp|Hp]]); by simplify_eq/=.
  - exists new. split; [done|]. eapply Forall_impl; [exact Hnew|].
    intros ev [Hn|(g & Hg & Hup)].
    + by apply is_notice_not_upload.
    + by apply (is_upload_of_other f g).
Qed.

(** Turns of the loop that do nothing can be taken out of it. *)
Lemma for_each_skipped (I : World → Prop) e f rows :
  (∀ n w, (f, n) ∈ rows → I w → resync_one e (f, n) w = (Ret tt, w)) →
  (∀ g n w, g ≠ f → I w → I (world_of (resync_one e (g, n) w))) →
  ∀ w, I w →
    for_each rows (resync_one e) w = for_each (other_rows f rows) (resync_one e) w.
Proof.
  intros Hskip Hkeep. unfold other_rows.
  induction rows as [|[g n] rows IH]; intros w Hw; [done|].
  destruct (decide (g = f)) as [->|Hg].
  - rewrite filter_cons_False by (simpl; naive_solver). simpl.
    eapply bind_step; [apply Hskip; [left|done]|].
    apply IH; [|done]. intros n' w' Hin. apply Hskip. by right.
  - rewrite filter_cons_True by done. simpl. unfold bind.
    specialize (Hkeep g n w Hg Hw).
    destruct (resync_one e (g, n) w) as [[[]|err] w1]; [|done].
    apply IH; [|done]. intros n' w' Hin. apply Hskip. by right.
Qed.

Lemma resync_one_at_ceiling e f n limit w :
  int_of_str e (getenv e "MAX_RETRIES" "5") = IntValue limit → (limit ≤ n)%Z →
  resync_one e (f, n) w = (Ret tt, w).
Proof.
  intros Hlimit Hn. unfold resync_one. rewrite (env_int_parsed _ _ _ _ Hlimit). simpl.
  rewrite bind_ret. by rewrite (proj2 (Z.leb_le limit n)).
Qed.

Lemma resync_one_no_payload e f n limit w :
  int_of_str e (getenv e "MAX_RETRIES" "5") = IntValue limit →
  fs w !! mkPath BackupDir f = None →
  resync_one e (f, n) w = (Ret tt, w).
Proof.
  intros Hlimit Hfile. unfold resync_one. rewrite (env_int_parsed _ _ _ _ Hlimit). simpl.
  rewrite bind_ret. destruct (limit <=? n)%Z; [done|].
  eapply bind_step; [apply path_exists_run|].
  rewrite Hfile, bool_decide_eq_false_2; [done|]. by intros [? [=]].
Qed.

Lemma process_backup_files_unfold e w :
  process_backup_files e w =
    try_except (for_each (backup_rows (db w)) (resync_one e)) (backup_error_handler e) w.
Proof. done. Qed.

(** A row the loop skips: the run is the run over the other rows. *)
Lemma process_backup_files_skipped (I : World → Prop) e f r w :
  db w !! f = Some r →
  (∀ w', I w' → resync_one e (f, retries r) w' = (Ret tt, w')) →
  (∀ w' w'', I w' → within (other_footprint f) w' w'' → I w'') →
  I w →
  let w' := world_of (process_backup_files e w) in
  db w' !! f = Some r ∧
  fs w' !! mkPath BackupDir f = fs w !! mkPath BackupDir f ∧
  (∃ new, log w' = log w ++ new ∧
          Forall (λ ev, ¬ is_upload_of (mkPath BackupDir f) ev) new) ∧
  process_backup_files e w =
    try_except (for_each (other_rows f (backup_rows (db w))) (resync_one e))
               (backup_error_handler e) w.
Proof.
  intros Hr Hskip Hkeep Hw w'.
  assert (Hrun : process_backup_files e w =
    try_except (for_each (other_rows f (backup_rows (db w))) (resync_one e))
               (backup_error_handler e) w).
  { rewrite process_backup_files_unfold. unfold try_except.
    rewrite (for_each_skipped I e f); [done| | |done].
    - intros n w1 Hin Hw1. apply elem_of_backup_rows in Hin as (r' & Hr' & _ & <-).
      rewrite Hr in Hr'. injection Hr' as <-. by apply Hskip.
    - intros g n w1 Hg Hw1. apply (Hkeep w1); [done|].
      eapply within_weaken; [| | |apply (stays_resync_one e g n)]; simpl.
      + intros p Hp. by exists g.
      + by intros ? ->.
      + intros ev [?|?]; [by left|right; by exists g]. }
  pose proof (stays_other_rows e f (backup_rows (db w)) w) as Hstays.
  rewrite <- Hrun in Hstays. fold w' in Hstays.
  apply other_footprint_frame in Hstays as (Hdb & Hfs & Hlog).
  rewrite Hdb. done.
Qed.

(** C5. A backup record whose retries have reached the ceiling is left
    alone by a resync run: its record and its payload are as before, no
    upload of it is started, and the run is, turn for turn, the run over
    the other backup rows. *)
Theorem C5_retry_ceiling e f r limit w :
  db w !! f = Some r →
  upload_status r = Backup →
  Str.py_int (getenv e "MAX_RETRIES" "5") = Some limit →
  (limit ≤ retries r)%Z →
  let w' := world_of (process_backup_files e w) in
  db w' !! f = Some r ∧
  fs w' !! mkPath BackupDir f = fs w !! mkPath BackupDir f ∧
  (∃ new, log w' = log w ++ new ∧
          Forall (λ ev, ¬ is_upload_of (mkPath BackupDir f) ev) new) ∧
  process_backup_files e w =
    try_except (for_each (other_rows f (backup_rows (db w))) (resync_one e))
               (backup_error_handler e) w.
Proof.
  intros Hr _ Hlimit Hceiling. apply (int_of_str_ascii e) in Hlimit.
  apply (process_backup_files_skipped (λ _, True)); try done.
  intros w1 _. by apply (resync_one_at_ceiling e f _ limit).
Qed.

(** C10. A backup record below the ceiling whose payload is missing from
    the backup directory is left alone by a resync run: its record is
    as before, no upload of it is started, and the run is, turn for
    turn, the run over the other backup rows, so that nothing is
    notified on its behalf. *)
Theorem C10_missing_payload e f r limit w :
  db w !! f = Some r →
  upload_status r = Backup →
  Str.py_int (getenv e "MAX_RETRIES" "5") = Some limit →
  (retries r < limit)%Z →
  fs w !! mkPath BackupDir f = None →
  let w' := world_of (process_backup_files e w) in
  db w' !! f = Some r ∧
  fs w' !! mkPath BackupDir f = None ∧
  (∃ new, log w' = log w ++ new ∧
          Forall (λ ev, ¬ is_upload_of (mkPath BackupDir f) ev) new) ∧
  process_backup_files e w =
    try_except (for_each (other_rows f (backup_rows (db w))) (resync_one e))
               (backup_error_handler e) w.
Proof.
  intros Hr _ Hlimit _ Hfile w'. apply (int_of_str_ascii e) in Hlimit.
  destruct (process_backup_files_skipped
              (λ w1, fs w1 !! mkPath BackupDir f = None) e f r w)
    as (Hdb & Hfs & Hlog & Hrun); try done.
  - intros w1 Hw1. by apply (resync_one_no_payload e f _ limit).
  - intros w1 w2 Hw1 Hstep.
    apply other_footprint_frame in Hstep as (_ & -> & _). done.
  - repeat split; try done. by etrans; [exact Hfs|].
Qed.

(** ** Actions that return *)

Section Returns.
Context {A B : Type}.

Lemma returns_ret (a : A) : returns (ret a).
Proof. intros w. by eexists _, _. Qed.

Lemma returns_modify g : returns (modify g).
Proof. intros w. by eexists _, _. Qed.

Lemma returns_bind (m : M A) (k : A → M B) :
  returns m → (∀ a, returns (k a)) → returns (bind m k).
Proof.
  intros Hm Hk w. destruct (Hm w) as (a & w1 & Hrun).
  destruct (Hk a w1) as (b & w2 & Hrun'). exists b, w2.
  by eapply bind_step.
Qed.

Lemma returns_try_except (m : M A) (h : string → M A) :
  (∀ err, returns (h err)) → returns (try_except m h).
Proof.
  intros Hh w. unfold try_except.
  destruct (m w) as [[a|err] w1]; [by eexists _, _|apply Hh].
Qed.

Lemma returns_finally (m : M A) (c : M unit) :
  returns m → returns c → returns (finally m c).
Proof.
  intros Hm Hc w. destruct (Hm w) as (a & w1 & Hrun).
  destruct (Hc w1) as ([] & w2 & Hrun'). exists a, w2.
  by eapply finally_step.
Qed.
End Returns.

Lemma returns_send_notification e message priority :
  returns (send_notification e message priority).
Proof.
  intros w.
  destruct (send_notification_effect e message priority w) as (b & wire & Hrun & _).
  by eexists _, _.
Qed.

Lemma returns_upload_to_onedrive e filepath : returns (upload_to_onedrive e filepath).
Proof.
  unfold upload_to_onedrive.
  apply returns_bind; [apply returns_modify|intros _].
  apply returns_finally.
  - apply returns_try_except. intros err.
    apply returns_bind; [apply returns_send_notification|intros _].
    apply returns_bind; [|intros _; apply returns_ret].
    apply returns_try_except. intros _. apply returns_ret.
  - apply returns_try_except. intros _. apply returns_ret.
Qed.

Lemma returns_resync_one e limit row :
  int_of_str e (getenv e "MAX_RETRIES" "5") = IntValue limit →
  returns (resync_one e row).
Proof.
  intros Hlimit. unfold resync_one. rewrite (env_int_parsed _ _ _ _ Hlimit).
  apply returns_bind; [apply returns_ret|intros max_retries].
  destruct (max_retries <=? row.2)%Z; [apply returns_ret|].
  apply returns_bind; [intros w; by eexists _, _|intros present].
  destruct (negb present); [apply returns_ret|].
  apply returns_bind; [apply returns_upload_to_onedrive|intros uploaded].
  destruct uploaded.
  - unfold update_status.
    apply returns_bind; [apply returns_modify|intros _].
    apply returns_bind; [apply returns_send_notification|intros _].
    apply returns_ret.
  - apply returns_modify.
Qed.

(** ** The turn of one row within a run *)

Lemma for_each_app {A} (l1 l2 : list A) (body : A → M unit) w :
  for_each (l1 ++ l2) body w = bind (for_each l1 body) (λ _, for_each l2 body) w.
Proof.
  revert w. induction l1 as [|x l1 IH]; intros w; [done|].
  simpl. unfold bind in *.
  destruct (body x w) as [[[]|err] w1]; [|done]. by rewrite IH.
Qed.

Lemma other_rows_all f rows : f ∉ rows.*1 → other_rows f rows = rows.
Proof.
  intros Hf. unfold other_rows. induction rows as [|[g n] rows IH]; [done|].
  rewrite fmap_cons, not_elem_of_cons in Hf. destruct Hf as [Hg Hf].
  rewrite filter_cons_True by (simpl; by intros ->). by rewrite IH.
Qed.

(** When no turn raises before it, the turn of [f] is reached after
    turns that stay away from [f], and is followed by such turns. *)
Lemma process_backup_files_turn e f r limit w :
  db w !! f = Some r →
  upload_status r = Backup →
  int_of_str e (getenv e "MAX_RETRIES" "5") = IntValue limit →
  ∃ w1 w2,
    within (other_footprint f) w w1 ∧
    resync_one e (f, retries r) w1 = (Ret tt, w2) ∧
    within (other_footprint f) w2 (world_of (process_backup_files e w)).
Proof.
  intros Hr Hs Hlimit.
  assert (Hin : (f, retries r) ∈ backup_rows (db w)).
  { apply elem_of_backup_rows. by exists r. }
  pose proof (NoDup_backup_rows (db w)) as Hnodup.
  rewrite process_backup_files_unfold.
  apply list_elem_of_split in Hin as (l1 & l2 & Hrows). rewrite Hrows in *.
  rewrite fmap_app, fmap_cons in Hnodup. simpl in Hnodup.
  apply NoDup_app in Hnodup as (_ & Hl1 & Hl2).
  apply NoDup_cons in Hl2 as [Hl2 _].
  assert (Hf1 : f ∉ l1.*1).
  { intros Hf. apply (Hl1 f Hf). by left. }
  pose proof (stays_other_rows e f l1 w) as Hbefore.
  rewrite (other_rows_all f l1 Hf1) in Hbefore.
  assert (Hret1 : returns (for_each l1 (resync_one e))).
  { clear -Hlimit. induction l1 as [|row l1 IH]; [apply returns_ret|].
    simpl. apply returns_bind; [by eapply returns_resync_one|by intros _]. } 
  destruct (Hret1 w) as ([] & w1 & Hrun1).
  unfold try_except in Hbefore. rewrite Hrun1 in Hbefore. simpl in Hbefore.
  destruct (returns_resync_one e limit (f, retries r) Hlimit w1) as ([] & w2 & Hrun2).
  exists w1, w2. split; [done|]. split; [done|].
  pose proof (stays_other_rows e f l2 w2) as Hafter.
  rewrite (other_rows_all f l2 Hl2) in Hafter.
  unfold try_except in *. rewrite for_each_app. unfold bind at 1. rewrite Hrun1.
  simpl. unfold bind at 1. rewrite Hrun2. exact Hafter.
Qed.


Lemma resync_one_failed e f n limit data err w :
  int_of_str e (getenv e "MAX_RETRIES" "5") = IntValue limit →
  (n < limit)%Z →
  fs w !! mkPath BackupDir f = Some data →
  UploadFails e f data err →
  ∃ wire,
    Forall (λ ev, is_wire ev = true) wire ∧
    resync_one e (f, n) w =
      (Ret tt,
       set_db (alter (λ r, with_retries (retries r + 1) r) f)
         (set_fs (λ files, <[mkPath BackupDir f := data]>
                             (delete (scratch_path (mkPath BackupDir f))
                                     (delete (mkPath BackupDir f) files)))
            (add_log ((EvUploadCall (mkPath BackupDir f) ::
                       sink_attempt e (mkPath BackupDir f) data) ++
                      EvNotify ("OneDrive upload failed: " +:+ err)
                               NotificationPriority.MEDIUM :: wire) w))).
Proof.
  intros Hlimit Hn Hfile Hfails.
  destruct (upload_to_onedrive_failed e (mkPath BackupDir f) data err w Hfile Hfails)
    as (wire & Hwire & Hupload).
  exists wire. split; [done|].
  unfold resync_one. rewrite (env_int_parsed _ _ _ _ Hlimit). simpl. rewrite bind_ret.
  rewrite (proj2 (Z.leb_gt limit n)) by done.
  eapply bind_step; [apply path_exists_run|].
  rewrite Hfile, bool_decide_eq_true_2 by done. simpl.
  eapply bind_step; [exact Hupload|]. done.
Qed.





Lemma C5_retry_ceiling_witness :
  let w' := world_of (process_backup_files Sample.offline Sample.backlog) in
  db w' !! "IMG_03.JPG" = Some (mkRecord "c3" 10 "2024-01-01 00:00:00" Backup 5) ∧
  fs w' !! mkPath BackupDir "IMG_03.JPG" =
    fs Sample.backlog !! mkPath BackupDir "IMG_03.JPG" ∧
  (∃ new, log w' = log Sample.backlog ++ new ∧
          Forall (λ ev, ¬ is_upload_of (mkPath BackupDir "IMG_03.JPG") ev) new) ∧
  process_backup_files Sample.offline Sample.backlog =
    try_except (for_each (other_rows "IMG_03.JPG" (backup_rows (db Sample.backlog)))
                         (resync_one Sample.offline))
               (backup_error_handler Sample.offline) Sample.backlog.
Proof.
  apply (C5_retry_ceiling Sample.offline "IMG_03.JPG"
           (mkRecord "c3" 10 "2024-01-01 00:00:00" Backup 5) 5 Sample.backlog).
  - reflexivity.
  - reflexivity.
  - reflexivity.
  - reflexivity.
Defined.

Lemma C10_missing_payload_witness :
  let w' := world_of (process_backup_files Sample.offline Sample.backlog) in
  db w' !! "IMG_04.JPG" = Some (mkRecord "c4" 10 "2024-01-01 00:00:00" Backup 1) ∧
  fs w' !! mkPath BackupDir "IMG_04.JPG" = None ∧
  (∃ new, log w' = log Sample.backlog ++ new ∧
          Forall (λ ev, ¬ is_upload_of (mkPath BackupDir "IMG_04.JPG") ev) new) ∧
  process_backup_files Sample.offline Sample.backlog =
    try_except (for_each (other_rows "IMG_04.JPG" (backup_rows (db Sample.backlog)))
                         (resync_one Sample.offline))
               (backup_error_handler Sample.offline) Sample.backlog.
Proof.
  apply (C10_missing_payload Sample.offline "IMG_04.JPG"
           (mkRecord "c4" 10 "2024-01-01 00:00:00" Backup 1) 5 Sample.backlog).
  - reflexivity.
  - reflexivity.
  - reflexivity.
  - reflexivity.
  - reflexivity.
Defined.

(** ** What becomes of a backup record *)

(** The turn of a backup row leaves its record as it was, marks it
    [success], or adds one to its retries. *)
Lemma resync_one_record e f n r w res w' :
  db w !! f = Some r →
  resync_one e (f, n) w = (res, w') →
  db w' !! f = Some r ∨
  db w' !! f = Some (with_status Success r) ∨
  db w' !! f = Some (with_retries (retries r + 1) r).
Proof.
  intros Hr. unfold resync_one, env_int. simpl.
  destruct (int_of_str _ _) as [limit|err]; [|intros [= _ <-]; by left].
  rewrite bind_ret. destruct (limit <=? n)%Z; [intros [= _ <-]; by left|].
  rewrite (bind_step _ _ _ _ _ _ (path_exists_run _ w) eq_refl).
  destruct (negb _); [intros [= _ <-]; by left|].
  destruct (returns_upload_to_onedrive e (mkPath BackupDir f) w) as (uploaded & w1 & Hup).
  pose proof (stays_upload_to_onedrive e (mkPath BackupDir f) w) as (_ & Hdb & _).
  rewrite Hup in Hdb. simpl in Hdb. specialize (Hdb f (λ H, H)).
  rewrite (bind_step _ _ _ _ _ _ Hup eq_refl).
  destruct uploaded.
  - unfold update_status. rewrite bind_modify.
    destruct (send_notification_effect e ("Successfully uploaded backup file " +:+ f)
                NotificationPriority.LOW (set_db (alter (with_status Success) f) w1))
      as (delivered & wire & Hsend & _).
    rewrite (bind_step _ _ _ _ _ _ Hsend eq_refl).
    intros [= _ <-]. right; left. simpl. by rewrite lookup_alter_eq, Hdb, Hr.
  - intros [= _ <-]. right; right. simpl. by rewrite lookup_alter_eq, Hdb, Hr.
Qed.

Lemma process_backup_files_bad_limit e err w :
  int_of_str e (getenv e "MAX_RETRIES" "5") = ValueError err →
  db (world_of (process_backup_files e w)) = db w.
Proof.
  intros Hlimit. rewrite process_backup_files_unfold. unfold try_except.
  destruct (backup_rows (db w)) as [|row rows]; [done|].
  simpl. unfold bind at 1, resync_one at 1, env_int, bind at 1. rewrite Hlimit.
  unfold raise, backup_error_handler.
  match goal with |- context [send_notification e ?m ?p] =>
    destruct (send_notification_effect e m p w) as (delivered & wire & Hsend & _)
  end.
  by rewrite (bind_step _ _ _ _ _ _ Hsend eq_refl).
Qed.

Lemma process_backup_files_record e f r w :
  db w !! f = Some r →
  upload_status r = Backup →
  let w' := world_of (process_backup_files e w) in
  db w' !! f = Some r ∨
  db w' !! f = Some (with_status Success r) ∨
  db w' !! f = Some (with_retries (retries r + 1) r).
Proof.
  intros Hr Hs w'.
  destruct (int_of_str e (getenv e "MAX_RETRIES" "5")) as [limit|err] eqn:Hlimit.
  - destruct (process_backup_files_turn e f r limit w Hr Hs Hlimit)
      as (w1 & w2 & Hbefore & Hturn & Hafter).
    fold w' in Hafter.
    apply other_footprint_frame in Hbefore as (Hdb1 & _).
    apply other_footprint_frame in Hafter as (Hdb2 & _).
    rewrite Hr in Hdb1. rewrite Hdb2.
    by apply (resync_one_record e f (retries r) r w1 (Ret tt)).
  - left. unfold w'. by rewrite (process_backup_files_bad_limit e err).
Qed.

(** The record [handle_file_processing] leaves for a file it has not
    delivered before: the one it stored, with some status. *)
Lemma handle_file_processing_record e f p data w :
  fs w !! p = Some data →
  undelivered w f →
  ∃ s, db (world_of (handle_file_processing e f p w)) !! f =
       Some (ingest_record e data s).
Proof.
  intros Hfile Hun.
  set (w1 := set_db <[f := ingest_record e data Pending]> w).
  destruct (returns_upload_to_onedrive e p w1) as (uploaded & w2 & Hup).
  pose proof (stays_upload_to_onedrive e p w1) as (_ & Hdb & _).
  rewrite Hup in Hdb. simpl in Hdb. specialize (Hdb f (λ H, H)).
  rewrite lookup_insert_eq in Hdb.
  assert (Hhead : ∀ (rest : bool → M bool),
    bind (calculate_checksum e p) (λ checksum,
      bind (stat_size p) (λ file_size,
        bind (select_success f) (λ already,
          if already then ret true
          else bind (insert_or_replace f (mkRecord checksum file_size (now e) Pending 0))
                 (λ _, bind (upload_to_onedrive e p) rest)))) w
    = rest uploaded w2).
  { intros rest.
    eapply bind_step; [by apply calculate_checksum_run|].
    run_step.
    eapply bind_step; [by apply select_success_undelivered|].
    unfold insert_or_replace. run_step.
    by eapply bind_step; [exact Hup|]. }
  unfold handle_file_processing, try_except. rewrite Hhead.
  destruct uploaded.
  - exists Success. unfold update_status. rewrite bind_modify. simpl.
    by rewrite lookup_alter_eq, Hdb.
  - destruct (fs w2 !! p) as [data'|] eqn:Hp.
    + exists Backup.
      rewrite (bind_step _ _ _ _ _ _ (rename_run p _ data' w2 Hp) eq_refl).
      unfold update_status. rewrite bind_modify.
      match goal with |- context [bind (send_notification e ?m ?pr) _ ?w0] =>
        destruct (send_notification_effect e m pr w0) as (delivered & wire & Hsend & _)
      end.
      rewrite (bind_step _ _ _ _ _ _ Hsend eq_refl). simpl.
      by rewrite lookup_alter_eq, Hdb.
    + exists Pending.
      rewrite (bind_raise _ _ _ _ _ (rename_missing p _ w2 Hp)).
      match goal with |- context [bind (send_notification e ?m ?pr) _ ?w0] =>
        destruct (send_notification_effect e m pr w0) as (delivered & wire & Hsend & _)
      end.
      rewrite (bind_step _ _ _ _ _ _ Hsend eq_refl). simpl.
      by rewrite Hdb.
Qed.

(** C2. A record in [backup] is not kept monotone by every operation.
    A resync run leaves it as it was, marks it [success], or adds one to
    its retries, and nothing else.  Processing the file afresh replaces
    the record by the one of the new payload, with no retries, and
    marks it [success] when the upload is accepted. *)
Theorem C2_backup_transitions e f r w :
  db w !! f = Some r →
  upload_status r = Backup →
  (let w' := world_of (process_backup_files e w) in
   db w' !! f = Some r ∨
   db w' !! f = Some (with_status Success r) ∨
   db w' !! f = Some (with_retries (retries r + 1) r)) ∧
  (∀ p data,
     fs w !! p = Some data →
     let w' := world_of (handle_file_processing e f p w) in
     ∃ s, db w' !! f = Some (ingest_record e data s) ∧
          (UploadAccepted e (path_name p) data → s = Success)).
Proof.
  intros Hr Hs. split; [by apply process_backup_files_record|].
  intros p data Hfile w'.
  assert (Hun : undelivered w f).
  { intros r' Hr'. rewrite Hr in Hr'. injection Hr' as <-. by rewrite Hs. }
  destruct (handle_file_processing_record e f p data w Hfile Hun) as (s & Hres).
  exists s. split; [done|]. intros Hok.
  unfold w' in *. rewrite (handle_file_processing_accepted e f p data w) in Hres by done.
  simpl in Hres. rewrite lookup_insert_eq in Hres. by injection Hres.
Qed.

Lemma C2_backup_transitions_witness :
  let f := "IMG_02.JPG" in
  let r := mkRecord "c2" 10 "2024-01-01 00:00:00" Backup 4 in
  let w := Sample.rediscovered in
  (let w' := world_of (process_backup_files Sample.offline w) in
   db w' !! f = Some r ∨
   db w' !! f = Some (with_status Success r) ∨
   db w' !! f = Some (with_retries (retries r + 1) r)) ∧
  (∀ p data,
     fs w !! p = Some data →
     let w' := world_of (handle_file_processing Sample.offline f p w) in
     ∃ s, db w' !! f = Some (ingest_record Sample.offline data s) ∧
          (UploadAccepted Sample.offline (path_name p) data → s = Success)).
Proof.
  apply (C2_backup_transitions Sample.offline "IMG_02.JPG"
           (mkRecord "c2" 10 "2024-01-01 00:00:00" Backup 4) Sample.rediscovered).
  - reflexivity.
  - reflexivity.
Defined.

(** The claim C2 fails on both operations.  Processing afresh a file
    that is in backup, while the sink times out, leaves its record
    [pending] with no retries; a resync run leaves a record at the
    ceiling as it was, with the same retries. *)
Lemma C2_counterexample :
  ¬ backup_monotone "IMG_02.JPG" Sample.rediscovered
      (world_of (handle_file_processing Sample.offline "IMG_02.JPG"
                   (local_path Sample.offline "IMG_02.JPG") Sample.rediscovered)) ∧
  ¬ backup_monotone "IMG_03.JPG" Sample.backlog
      (world_of (process_backup_files Sample.offline Sample.backlog)).
Proof.
  split.
  - intros H.
    destruct (H (mkRecord "c2" 10 "2024-01-01 00:00:00" Backup 4) eq_refl eq_refl)
      as (r' & Hr' & Hcase).
    vm_compute in Hr'. injection Hr' as <-.
    destruct Hcase as [Hs|[Hs _]]; discriminate Hs.
  - intros H.
    destruct (H (mkRecord "c3" 10 "2024-01-01 00:00:00" Backup 5) eq_refl eq_refl)
      as (r' & Hr' & Hcase).
    vm_compute in Hr'. injection Hr' as <-.
    destruct Hcase as [Hs|[_ Hlt]]; [discriminate Hs|]. simpl in Hlt. lia.
Qed.

(** ** Discovery *)










Lemma camera_unavailable_run e w :
  camera_init e 0 = true →
  camera_unavailable e w = (Ret false, set_camera true w).
Proof.
  intros Hinit. unfold camera_unavailable. rewrite bind_gets.
  destruct (camera w) eqn:Hcam.
  - destruct w. simpl in Hcam. by subst.
  - unfold connect_camera, connect_retries. simpl.
    eapply bind_step; [rewrite bind_modify; by rewrite Hinit|]. done.
Qed.





Lemma get_camera_files_listed e call names w :
  camera_init e 0 = true →
  camera_list e call = Listed names →
  get_camera_files e call w = (Ret names, set_camera true w).
Proof.
  intros Hinit Hlist. unfold get_camera_files.
  eapply bind_step; [by apply camera_unavailable_run|]. simpl.
  by rewrite Hlist.
Qed.




(** * Further properties of the code *)

(** ** Verification of a copy, in full *)

(** X1. [verify_file] never raises and changes nothing.  It answers
    [True] exactly when the file exists and the expected size is
    absent, zero, or the size on disk; a missing file is [False]
    whatever size is expected. *)
Theorem verify_file_answers p original_size w :
  ∃ ok,
    verify_file p original_size w = (Ret ok, w) ∧
    (ok = true ↔
     ∃ data, fs w !! p = Some data ∧
             (original_size = None ∨ original_size = Some 0 ∨
              original_size = Some (Str.len data))) ∧
    (fs w !! p = None → ok = false).
Proof.
  destruct (fs w !! p) as [data|] eqn:Hfile.
  - eexists. split; [by apply verify_file_run|]. split; [|done].
    destruct original_size as [n|]; simpl.
    + destruct (Z.eqb_spec n 0) as [->|Hn]; simpl.
      * split; [|done]. intros _. exists data. auto.
      * rewrite negb_involutive, bool_decide_eq_true. split.
        -- intros [= <-]. exists data. auto.
        -- intros (data' & [= <-] & [?|[[= ?]|?]]); congruence.
    + split; [|done]. intros _. exists data. auto.
  - exists false. split; [by apply verify_file_missing|].
    split; [|done]. split; [done|]. by intros (data & ? & _).
Qed.

(** ** The upload step, whatever happens *)

(** X2. [upload_to_onedrive] returns a boolean whatever happens (no
    exception leaves it), and when it returns the scratch copy
    [temp_dir/upload_<name>] is not on disk: the [finally] block removes
    it on every path. *)
Theorem upload_to_onedrive_leaves_no_scratch e filepath w :
  ∃ ok w',
    upload_to_onedrive e filepath w = (Ret ok, w') ∧
    fs w' !! scratch_path filepath = None.
Proof.
  unfold upload_to_onedrive. fold (scratch_path filepath). rewrite bind_modify.
  set (w0 := emit (EvUploadCall filepath) w).
  match goal with |- context [finally ?body ?cleanup] =>
    assert (Hbody : returns body)
  end.
  { apply returns_try_except. intros err.
    apply returns_bind; [apply returns_send_notification|intros _].
    apply returns_bind; [|intros _; apply returns_ret].
    apply returns_try_except. intros _. apply returns_ret. }
  destruct (Hbody w0) as (ok & w1 & Hrun).
  destruct (fs w1 !! scratch_path filepath) as [copy|] eqn:Hcopy.
  - exists ok, (set_fs (delete (scratch_path filepath)) w1). split.
    + eapply finally_step; [exact Hrun|].
      apply try_except_run. run_step.
      rewrite Hcopy, bool_decide_eq_true_2 by done. by eapply unlink_run.
    + simpl. apply lookup_delete_eq.
  - exists ok, w1. split; [|done].
    eapply finally_step; [exact Hrun|].
    apply try_except_run. run_step.
    rewrite Hcopy, bool_decide_eq_false_2; [done|]. by intros [? [=]].
Qed.

(** X3. An accepted upload: the sink is called once, for
    [/Timelapse/<name>] with the bytes of the scratch copy; the call
    returns [True]; the original and the scratch copy are gone, every
    other file and the store are as before, and nothing is notified. *)
Theorem upload_to_onedrive_delivers e filepath data w :
  fs w !! filepath = Some data →
  UploadAccepted e (path_name filepath) data →
  let outcome := upload_to_onedrive e filepath w in
  let w' := world_of outcome in
  result_of outcome = Ret true ∧
  fs w' !! filepath = None ∧
  fs w' !! scratch_path filepath = None ∧
  (∀ q, q ≠ filepath → q ≠ scratch_path filepath → fs w' !! q = fs w !! q) ∧
  db w' = db w ∧
  log w' = log w ++ [EvUploadCall filepath;
                     EvSinkUpload (remote_path (path_name filepath)) (disk_write e data)].
Proof.
  intros Hfile Hok outcome w'. unfold w', outcome.
  rewrite (upload_to_onedrive_accepted e filepath data w Hfile Hok). simpl.
  pose proof (scratch_path_ne filepath) as Hne.
  repeat split.
  - rewrite lookup_delete_ne by done. apply lookup_delete_eq.
  - apply lookup_delete_eq.
  - intros q Hq Hq'. by rewrite !lookup_delete_ne.
Qed.

Lemma upload_to_onedrive_delivers_witness :
  let filepath := local_path Sample.online "IMG_01.JPG" in
  let w := mkWorld {[ filepath := "jpeg bytes" ]} ∅ true ∅ [] in
  let outcome := upload_to_onedrive Sample.online filepath w in
  let w' := world_of outcome in
  result_of outcome = Ret true ∧
  fs w' !! filepath = None ∧
  fs w' !! scratch_path filepath = None ∧
  (∀ q, q ≠ filepath → q ≠ scratch_path filepath → fs w' !! q = fs w !! q) ∧
  db w' = db w ∧
  log w' = log w ++ [EvUploadCall filepath;
                     EvSinkUpload (remote_path (path_name filepath))
                                  (disk_write Sample.online "jpeg bytes")].
Proof.
  intros filepath w.
  apply (upload_to_onedrive_delivers Sample.online filepath "jpeg bytes" w).
  - reflexivity.
  - split; reflexivity.
Defined.




(** X5. An upload of a file that is not there: the call returns [False]
    without calling the sink, notifies the MEDIUM [OneDrive upload
    failed] with the text of the missing-file error, and changes
    neither the store nor any file other than a scratch copy left by an
    earlier call, which it removes. *)
Theorem upload_to_onedrive_missing_source e filepath w :
  fs w !! filepath = None →
  let outcome := upload_to_onedrive e filepath w in
  let w' := world_of outcome in
  result_of outcome = Ret false ∧
  (∀ q, q ≠ scratch_path filepath → fs w' !! q = fs w !! q) ∧
  fs w' !! scratch_path filepath = None ∧
  db w' = db w ∧
  ∃ wire,
    Forall (λ ev, is_wire ev = true) wire ∧
    log w' = log w ++
      EvUploadCall filepath ::
      EvNotify ("OneDrive upload failed: " +:+
                "[Errno 2] No such file or directory: '" +:+ path_str filepath +:+ "'")
               NotificationPriority.MEDIUM :: wire.
Proof.
  intros Hfile outcome w'.
  set (msg := "OneDrive upload failed: " +:+
              "[Errno 2] No such file or directory: '" +:+ path_str filepath +:+ "'").
  set (w0 := emit (EvUploadCall filepath) w).
  destruct (send_notification_effect e msg NotificationPriority.MEDIUM w0)
    as (delivered & wire & Hsend & Hwire).
  set (w1 := add_log (EvNotify msg NotificationPriority.MEDIUM :: wire) w0) in *.
  assert (Hrun : ∀ w2,
    try_except
      (present ← path_exists (scratch_path filepath);
       if present then unlink (scratch_path filepath) else ret tt)
      (λ _, ret tt) w1 = (Ret tt, w2) →
    outcome = (Ret false, w2)).
  { intros w2 Hclean. unfold outcome, upload_to_onedrive.
    fold (scratch_path filepath). rewrite bind_modify. fold w0.
    eapply finally_step; [|exact Hclean].
    eapply try_catch; [eapply bind_raise; by apply read_bytes_missing|].
    eapply bind_step; [exact Hsend|].
    eapply bind_step; [|reflexivity].
    eapply try_catch; [by apply rename_missing|reflexivity]. }
  destruct (fs w1 !! scratch_path filepath) as [copy|] eqn:Hcopy.
  - unfold w'. rewrite (Hrun (set_fs (delete (scratch_path filepath)) w1)).
    + simpl. repeat split.
      * intros q Hq. by rewrite lookup_delete_ne.
      * apply lookup_delete_eq.
      * exists wire. split; [done|]. by rewrite <- app_assoc.
    + apply try_except_run. run_step.
      rewrite Hcopy, bool_decide_eq_true_2 by done. by eapply unlink_run.
  - unfold w'. rewrite (Hrun w1).
    + simpl. repeat split; try done.
      exists wire. split; [done|]. by rewrite <- app_assoc.
    + apply try_except_run. run_step.
      rewrite Hcopy, bool_decide_eq_false_2; [done|]. by intros [? [=]].
Qed.

Lemma upload_to_onedrive_missing_source_witness :
  let filepath := mkPath BackupDir "IMG_04.JPG" in
  let outcome := upload_to_onedrive Sample.offline filepath Sample.backlog in
  let w' := world_of outcome in
  result_of outcome = Ret false ∧
  (∀ q, q ≠ scratch_path filepath → fs w' !! q = fs Sample.backlog !! q) ∧
  fs w' !! scratch_path filepath = None ∧
  db w' = db Sample.backlog ∧
  ∃ wire,
    Forall (λ ev, is_wire ev = true) wire ∧
    log w' = log Sample.backlog ++
      EvUploadCall filepath ::
      EvNotify ("OneDrive upload failed: " +:+
                "[Errno 2] No such file or directory: '" +:+ path_str filepath +:+ "'")
               NotificationPriority.MEDIUM :: wire.
Proof.
  intros filepath.
  apply (upload_to_onedrive_missing_source Sample.offline filepath Sample.backlog).
  reflexivity.
Defined.

(** ** The notification channel *)

(** X6. [send_notification] returns whether one of the two transports
    delivered; it changes no file, no row of the store and no field of
    the monitor, and when the HTTP post goes through nothing is written
    to the modem. *)
Theorem send_notification_outcome e message priority w :
  let outcome := send_notification e message priority w in
  let w' := world_of outcome in
  result_of outcome = Ret (primary_ok e message priority || secondary_ok e message) ∧
  fs w' = fs w ∧ db w' = db w ∧ camera w' = camera w ∧
  processed_files w' = processed_files w ∧
  (∃ new, log w' = log w ++ new ∧ notifications new = [(message, priority)]) ∧
  (primary_ok e message priority = true →
   log w' = log w ++ [EvNotify message priority;
                      EvHttpPost (ntfy_url e) message priority]).
Proof.
  intros outcome w'. unfold w', outcome.
  destruct (send_notification_run e message priority w) as (wire & -> & Hwire).
  simpl. repeat split.
  - eexists. split; [done|].
    change (notifications (EvNotify message priority ::
                           EvHttpPost (ntfy_url e) message priority :: wire))
      with ((message, priority) :: notifications wire).
    rewrite notifications_wire; [done|].
    destruct (primary_ok e message priority); [by subst|].
    destruct Hwire as (sent & -> & _). apply Forall_fmap, Forall_forall. by intros cmd _.
  - intros Hok. rewrite Hok in Hwire. by subst.
Qed.

(** ** The capture device *)

(** X7. [connect_camera] tries three times and stops at the first
    attempt that succeeds: it returns whether one of them did, the
    handle is set exactly then, and only a failure of all three is
    notified, once, with priority HIGH. *)
Theorem connect_camera_outcome e w :
  let ok := camera_init e 0 || camera_init e 1 || camera_init e 2 in
  let outcome := connect_camera e w in
  let w' := world_of outcome in
  result_of outcome = Ret ok ∧
  camera w' = ok ∧
  fs w' = fs w ∧ db w' = db w ∧ processed_files w' = processed_files w ∧
  ∃ new, log w' = log w ++ new ∧
         notifications new =
           if ok then [] else [("Camera connection failed", NotificationPriority.HIGH)].
Proof.
  intros ok outcome w'. unfold w', outcome, ok, connect_camera, connect_retries.
  simpl. rewrite !bind_modify.
  destruct (camera_init e 0).
  { simpl. repeat split. exists []. by rewrite app_nil_r. }
  rewrite !bind_modify. destruct (camera_init e 1).
  { simpl. repeat split. exists []. by rewrite app_nil_r. }
  rewrite !bind_modify. destruct (camera_init e 2).
  { simpl. repeat split. exists []. by rewrite app_nil_r. }
  rewrite bind_modify.
  match goal with |- context [bind (send_notification e ?m ?p) _ ?w0] =>
    destruct (send_notification_effect e m p w0) as (delivered & wire & Hsend & Hwire)
  end.
  rewrite (bind_step _ _ _ _ _ _ Hsend eq_refl). simpl. repeat split.
  eexists. split; [done|].
  change (notifications (EvNotify "Camera connection failed" NotificationPriority.HIGH :: wire))
    with (("Camera connection failed", NotificationPriority.HIGH) :: notifications wire).
  by rewrite notifications_wire.
Qed.

Lemma camera_unavailable_connected e w :
  camera w = true → camera_unavailable e w = (Ret false, w).
Proof. intros Hcam. unfold camera_unavailable. by rewrite bind_gets, Hcam. Qed.

(** X8. With the camera connected, a listing that fails because the
    camera is in use returns no file and leaves the whole world as it
    was, handle included; any other gphoto2 error returns no file and
    drops the handle, so that the next call connects again. *)
Theorem get_camera_files_busy_or_lost e call msg w :
  camera w = true →
  camera_list e call = GPhotoError msg →
  get_camera_files e call w =
    if Str.contains "Camera is already in use" msg
    then (Ret [], w)
    else (Ret [], set_camera false w).
Proof.
  intros Hcam Hlist. unfold get_camera_files.
  rewrite (bind_step _ _ _ _ _ _ (camera_unavailable_connected e w Hcam) eq_refl).
  simpl. rewrite Hlist. by destruct (Str.contains _ msg).
Qed.

Lemma get_camera_files_busy_or_lost_witness :
  let e := mkEnv ∅ Sample.rejects "20240101_000000" "2024-01-01 00:00:00" (λ data, data) (λ data, data) (λ _ _, None)
             (λ _ _ _, HttpStatus 200) (λ _ _, SerialReply "OK") (λ _, true)
             (λ _, GPhotoError "[-53] Could not claim the USB device: Camera is already in use")
             (λ _, None) 50 None (λ _, "50.0") in
  let w := mkWorld ∅ ∅ true ∅ [] in
  get_camera_files e 0 w =
    if Str.contains "Camera is already in use"
         "[-53] Could not claim the USB device: Camera is already in use"
    then (Ret [], w)
    else (Ret [], set_camera false w).
Proof.
  intros e w.
  apply (get_camera_files_busy_or_lost e 0
           "[-53] Could not claim the USB device: Camera is already in use" w);
    reflexivity.
Defined.

(** ** Processing a downloaded file, further *)

(** X9. A fresh delivery whose upload is accepted returns [True],
    removes the local copy and its scratch copy, stores for the file
    the checksum and size of the payload with status [success] and no
    retries, leaves every other row as it was, and notifies nothing. *)
Theorem handle_file_processing_delivers e filename p data w :
  fs w !! p = Some data →
  undelivered w filename →
  UploadAccepted e (path_name p) data →
  let outcome := handle_file_processing e filename p w in
  let w' := world_of outcome in
  result_of outcome = Ret true ∧
  db w' !! filename =
    Some (mkRecord (sha256_hexdigest e data) (Str.len data) (now e) Success 0) ∧
  (∀ g, g ≠ filename → db w' !! g = db w !! g) ∧
  fs w' !! p = None ∧
  fs w' !! scratch_path p = None ∧
  ∃ new, log w' = log w ++ new ∧ notifications new = [].
Proof.
  intros Hfile Hun Hok outcome w'. unfold w', outcome.
  rewrite (handle_file_processing_accepted e filename p data w Hfile Hun Hok). simpl.
  pose proof (scratch_path_ne p) as Hne.
  repeat split.
  - apply lookup_insert_eq.
  - intros g Hg. by apply lookup_insert_ne.
  - rewrite lookup_delete_ne by done. apply lookup_delete_eq.
  - apply lookup_delete_eq.
  - by eexists.
Qed.

Lemma handle_file_processing_delivers_witness :
  let p := local_path Sample.online "IMG_01.JPG" in
  let w := mkWorld {[ p := "jpeg bytes" ]} ∅ true ∅ [] in
  let outcome := handle_file_processing Sample.online "IMG_01.JPG" p w in
  let w' := world_of outcome in
  result_of outcome = Ret true ∧
  db w' !! "IMG_01.JPG" =
    Some (mkRecord (sha256_hexdigest Sample.online "jpeg bytes") (Str.len "jpeg bytes")
                   (now Sample.online) Success 0) ∧
  (∀ g, g ≠ "IMG_01.JPG" → db w' !! g = db w !! g) ∧
  fs w' !! p = None ∧
  fs w' !! scratch_path p = None ∧
  ∃ new, log w' = log w ++ new ∧ notifications new = [].
Proof.
  intros p w.
  apply (handle_file_processing_delivers Sample.online "IMG_01.JPG" p "jpeg bytes" w).
  - reflexivity.
  - intros r Hr. vm_compute in Hr. discriminate Hr.
  - split; reflexivity.
Defined.

(** X10. Processing a file that is not on disk fails before the store
    is consulted: the call returns [False], files and store are as
    before, no upload is started, and the one notification is the HIGH
    [File processing failed] with the text of the missing-file error. *)
Theorem handle_file_processing_missing_file e filename p w :
  fs w !! p = None →
  ∃ wire,
    Forall (λ ev, is_wire ev = true) wire ∧
    handle_file_processing e filename p w =
      (Ret false,
       add_log (EvNotify ("File processing failed for " +:+ filename +:+ ": " +:+
                          "[Errno 2] No such file or directory: '" +:+ path_str p +:+ "'")
                         NotificationPriority.HIGH :: wire) w).
Proof.
  intros Hfile.
  destruct (send_notification_effect e
              ("File processing failed for " +:+ filename +:+ ": " +:+
               "[Errno 2] No such file or directory: '" +:+ path_str p +:+ "'")
              NotificationPriority.HIGH w) as (delivered & wire & Hsend & Hwire).
  exists wire. split; [done|].
  unfold handle_file_processing.
  eapply try_catch.
  - eapply bind_raise. unfold calculate_checksum.
    eapply bind_raise. by apply read_bytes_missing.
  - by eapply bind_step; [exact Hsend|].
Qed.

Lemma handle_file_processing_missing_file_witness :
  ∃ wire,
    Forall (λ ev, is_wire ev = true) wire ∧
    handle_file_processing Sample.offline "IMG_09.JPG"
      (local_path Sample.offline "IMG_09.JPG") Sample.backlog =
      (Ret false,
       add_log (EvNotify ("File processing failed for " +:+ "IMG_09.JPG" +:+ ": " +:+
                          "[Errno 2] No such file or directory: '" +:+
                          path_str (local_path Sample.offline "IMG_09.JPG") +:+ "'")
                         NotificationPriority.HIGH :: wire) Sample.backlog).
Proof.
  apply (handle_file_processing_missing_file Sample.offline "IMG_09.JPG"
           (local_path Sample.offline "IMG_09.JPG") Sample.backlog).
  reflexivity.
Defined.

(** ** Backlog resync, further *)



(** X12. A resync run leaves alone every file that is not in backup:
    its record (or its absence from the store) and its file in the
    backup directory are as before, and no upload of it is started. *)
Theorem process_backup_files_only_backups e f w :
  (∀ r, db w !! f = Some r → upload_status r ≠ Backup) →
  let w' := world_of (process_backup_files e w) in
  db w' !! f = db w !! f ∧
  fs w' !! mkPath BackupDir f = fs w !! mkPath BackupDir f ∧
  ∃ new, log w' = log w ++ new ∧
         Forall (λ ev, ¬ is_upload_of (mkPath BackupDir f) ev) new.
Proof.
  intros Hf w'.
  assert (Hnot : f ∉ (backup_rows (db w)).*1).
  { intros ([g n] & -> & Hin)%list_elem_of_fmap. simpl in Hf.
    apply elem_of_backup_rows in Hin as (r & Hr & Hs & _). by apply (Hf r). }
  pose proof (stays_other_rows e f (backup_rows (db w)) w) as Hstays.
  rewrite (other_rows_all f _ Hnot), <- process_backup_files_unfold in Hstays.
  by apply other_footprint_frame in Hstays.
Qed.

Lemma process_backup_files_only_backups_witness :
  let w := set_db <[ "IMG_01.JPG" := mkRecord "c1" 10 "2023-12-31 23:59:00" Success 0 ]>
                  Sample.backlog in
  let w' := world_of (process_backup_files Sample.offline w) in
  db w' !! "IMG_01.JPG" = db w !! "IMG_01.JPG" ∧
  fs w' !! mkPath BackupDir "IMG_01.JPG" = fs w !! mkPath BackupDir "IMG_01.JPG" ∧
  ∃ new, log w' = log w ++ new ∧
         Forall (λ ev, ¬ is_upload_of (mkPath BackupDir "IMG_01.JPG") ev) new.
Proof.
  intros w.
  apply (process_backup_files_only_backups Sample.offline "IMG_01.JPG" w).
  intros r Hr. vm_compute in Hr. injection Hr as <-. discriminate.
Defined.

(** X13. A [MAX_RETRIES] that [int()] rejects stops a resync run at
    its first row: the run returns, no upload is started and no file or
    record changes, and the error is notified once with priority HIGH.
    With an empty backlog the variable is not read and the run does
    nothing at all. *)
Theorem process_backup_files_bad_ceiling e err w :
  int_of_str e (getenv e "MAX_RETRIES" "5") = ValueError err →
  ∃ wire,
    Forall (λ ev, is_wire ev = true) wire ∧
    process_backup_files e w =
      (Ret tt,
       match backup_rows (db w) with
       | [] => w
       | _ :: _ =>
           add_log (EvNotify ("Error processing backup files: " +:+ err)
                             NotificationPriority.HIGH :: wire) w
       end).
Proof.
  intros Hlimit.
  destruct (send_notification_effect e ("Error processing backup files: " +:+ err)
              NotificationPriority.HIGH w) as (delivered & wire & Hsend & Hwire).
  exists wire. split; [done|].
  rewrite process_backup_files_unfold.
  destruct (backup_rows (db w)) as [|row rows]; [done|].
  eapply try_catch.
  - simpl. eapply bind_raise. unfold resync_one, env_int. rewrite Hlimit.
    by eapply bind_raise.
  - unfold backup_error_handler. by eapply bind_step; [exact Hsend|].
Qed.

Lemma process_backup_files_bad_ceiling_witness :
  let e := mkEnv {[ "MAX_RETRIES" := "five" ]} Sample.rejects "20240101_000000" "2024-01-01 00:00:00" (λ data, data)
             (λ data, data) (λ _ _, None) (λ _ _ _, HttpStatus 200)
             (λ _ _, SerialReply "OK") (λ _, true) (λ _, Listed []) (λ _, None)
             50 None (λ _, "50.0") in
  ∃ wire,
    Forall (λ ev, is_wire ev = true) wire ∧
    process_backup_files e Sample.backlog =
      (Ret tt,
       match backup_rows (db Sample.backlog) with
       | [] => Sample.backlog
       | _ :: _ =>
           add_log (EvNotify ("Error processing backup files: " +:+
                              "invalid literal for int() with base 10: 'five'")
                             NotificationPriority.HIGH :: wire) Sample.backlog
       end).
Proof.
  intros e.
  apply (process_backup_files_bad_ceiling e
           "invalid literal for int() with base 10: 'five'" Sample.backlog).
  reflexivity.
Defined.

(** The record and the payload of a backup file after a run in which its
    retry failed. *)
Lemma process_backup_files_failed_record e f r limit data err w :
  db w !! f = Some r →
  upload_status r = Backup →
  int_of_str e (getenv e "MAX_RETRIES" "5") = IntValue limit →
  (retries r < limit)%Z →
  fs w !! mkPath BackupDir f = Some data →
  UploadFails e f data err →
  let w' := world_of (process_backup_files e w) in
  db w' !! f = Some (with_retries (retries r + 1) r) ∧
  fs w' !! mkPath BackupDir f = Some data.
Proof.
  intros Hr Hs Hlimit Hn Hfile Hfails w'.
  destruct (process_backup_files_turn e f r limit w Hr Hs Hlimit)
    as (w1 & w2 & Hbefore & Hturn & Hafter).
  fold w' in Hafter.
  apply other_footprint_frame in Hbefore as (Hdb1 & Hfs1 & _).
  apply other_footprint_frame in Hafter as (Hdb2 & Hfs2 & _).
  rewrite Hr in Hdb1. rewrite Hfile in Hfs1.
  destruct (resync_one_failed e f (retries r) limit data err w1 Hlimit Hn Hfs1 Hfails)
    as (wire & Hwire & Hrun).
  rewrite Hrun in Hturn. injection Hturn as <-.
  simpl in Hdb2, Hfs2. split.
  - by rewrite Hdb2, lookup_alter_eq, Hdb1.
  - rewrite Hfs2. apply lookup_insert_eq.
Qed.

(** X14. The last retry.  When the retry that brings a backup file to
    the ceiling fails, the next run, whatever the sink does then, leaves
    the record at the ceiling, keeps the payload in the backup
    directory and starts no upload of the file. *)
Theorem process_backup_files_gives_up e e' f r limit data err w :
  db w !! f = Some r →
  upload_status r = Backup →
  Str.py_int (getenv e "MAX_RETRIES" "5") = Some limit →
  Str.py_int (getenv e' "MAX_RETRIES" "5") = Some limit →
  (retries r + 1 = limit)%Z →
  fs w !! mkPath BackupDir f = Some data →
  UploadFails e f data err →
  let w1 := world_of (process_backup_files e w) in
  let w2 := world_of (process_backup_files e' w1) in
  db w1 !! f = Some (with_retries limit r) ∧
  db w2 !! f = Some (with_retries limit r) ∧
  fs w2 !! mkPath BackupDir f = Some data ∧
  ∃ new, log w2 = log w1 ++ new ∧
         Forall (λ ev, ¬ is_upload_of (mkPath BackupDir f) ev) new.
Proof.
  intros Hr Hs Hlimit Hlimit' Hlast Hfile Hfails w1 w2.
  apply (int_of_str_ascii e) in Hlimit. apply (int_of_str_ascii e') in Hlimit'.
  destruct (process_backup_files_failed_record e f r limit data err w
              Hr Hs Hlimit ltac:(lia) Hfile Hfails) as (Hdb1 & Hfs1).
  fold w1 in Hdb1, Hfs1. rewrite Hlast in Hdb1.
  destruct (process_backup_files_skipped (λ _, True) e' f (with_retries limit r) w1)
    as (Hdb2 & Hfs2 & Hlog2 & _); try done.
  { intros w0 _. apply (resync_one_at_ceiling e' f _ limit); [done|]. simpl. lia. }
  fold w2 in Hdb2, Hfs2, Hlog2. rewrite Hfs1 in Hfs2. done.
Qed.

Lemma process_backup_files_gives_up_witness :
  let r := mkRecord "c2" 10 "2024-01-01 00:00:00" Backup 4 in
  let w1 := world_of (process_backup_files Sample.offline Sample.backlog) in
  let w2 := world_of (process_backup_files Sample.online w1) in
  db w1 !! "IMG_02.JPG" = Some (with_retries 5 r) ∧
  db w2 !! "IMG_02.JPG" = Some (with_retries 5 r) ∧
  fs w2 !! mkPath BackupDir "IMG_02.JPG" = Some "jpeg bytes" ∧
  ∃ new, log w2 = log w1 ++ new ∧
         Forall (λ ev, ¬ is_upload_of (mkPath BackupDir "IMG_02.JPG") ev) new.
Proof.
  intros r.
  apply (process_backup_files_gives_up Sample.offline Sample.online "IMG_02.JPG" r 5
           "jpeg bytes" "timed out" Sample.backlog).
  - reflexivity.
  - reflexivity.
  - reflexivity.
  - reflexivity.
  - reflexivity.
  - reflexivity.
  - apply SinkRaises; reflexivity.
Defined.

(** ** Discovery, further *)

(** X15. The cap on the in-memory set: what [check_new_images] keeps is
    a subset of the set, of at most 1000 names, exactly 1000 when
    the set was larger, and the set itself when it was not. *)
Theorem limit_processed_bound (s : gset string) :
  limit_processed s ⊆ s ∧
  (size (limit_processed s) ≤ 1000)%nat ∧
  ((1000 < size s)%nat → size (limit_processed s) = 1000%nat) ∧
  ((size s ≤ 1000)%nat → limit_processed s = s).
Proof.
  unfold limit_processed.
  destruct (Nat.ltb_spec 1000 (size s)) as [Hbig|Hsmall].
  - assert (Hsize : size (list_to_set (C:=gset string)
                            (drop (size s - 1000) (elements s))) = 1000%nat).
    { rewrite size_list_to_set.
      - rewrite length_drop. change (length (elements s)) with (size s). lia.
      - eapply sublist_NoDup; [apply (NoDup_elements s)|apply sublist_drop]. }
    repeat split.
    + intros x Hx. apply elem_of_list_to_set in Hx.
      apply elem_of_elements.
      exact (sublist_subseteq _ _ (sublist_drop (elements s) (size s - 1000)) x Hx).
    + by rewrite Hsize.
    + done.
    + lia.
  - repeat split; [done|lia|lia].
Qed.

(** X16. Files the process has already handled are skipped in memory:
    when every listed name is in [self.processed_files], the cycle ends
    after the first listing, with nothing downloaded, no file or record
    touched and nothing notified; only the handle is now connected. *)
Theorem check_new_images_all_processed e names w :
  camera_init e 0 = true →
  camera_list e 0 = Listed names →
  (∀ name, name ∈ names → name ∈ processed_files w) →
  check_new_images e w = (Ret tt, set_camera true w).
Proof.
  intros Hinit Hlist Hseen. unfold check_new_images.
  apply try_except_run.
  eapply bind_step; [by apply get_camera_files_listed|].
  rewrite bind_gets. simpl.
  destruct (decide (list_to_set names ∖ processed_files w = (∅ : gset string)))
    as [_|Hnew]; [done|].
  exfalso. apply Hnew. apply set_eq. intros name.
  rewrite elem_of_difference, elem_of_list_to_set. split; [|by intros ?%not_elem_of_empty].
  intros [Hin Hnot]. by specialize (Hseen name Hin).
Qed.

Lemma check_new_images_all_processed_witness :
  let w := mkWorld ∅ ∅ false {[ "IMG_01.JPG" ]} [] in
  check_new_images Sample.online w = (Ret tt, set_camera true w).
Proof.
  intros w.
  apply (check_new_images_all_processed Sample.online ["IMG_01.JPG"] w).
  - reflexivity.
  - reflexivity.
  - intros name Hin. apply list_elem_of_singleton in Hin. subst name.
    unfold w. simpl. by apply elem_of_singleton.
Defined.

(** X17. A cycle without a camera: when the process holds no handle and
    the three connection attempts fail, [check_new_images] returns with
    nothing downloaded and no file, record or processed name changed;
    the handle stays unset and the one notification is the HIGH
    [Camera connection failed]. *)
Theorem check_new_images_no_camera e w :
  camera w = false →
  camera_init e 0 = false → camera_init e 1 = false → camera_init e 2 = false →
  let outcome := check_new_images e w in
  let w' := world_of outcome in
  result_of outcome = Ret tt ∧
  camera w' = false ∧
  fs w' = fs w ∧ db w' = db w ∧ processed_files w' = processed_files w ∧
  ∃ wire,
    Forall (λ ev, is_wire ev = true) wire ∧
    log w' = log w ++ EvNotify "Camera connection failed" NotificationPriority.HIGH :: wire.
Proof.
  intros Hcam H0 H1 H2 outcome w'.
  set (w0 := set_camera false (set_camera true (set_camera false (set_camera true
               (set_camera false (set_camera true w)))))).
  destruct (send_notification_effect e "Camera connection failed"
              NotificationPriority.HIGH w0) as (delivered & wire & Hsend & Hwire).
  assert (Hrun : outcome =
    (Ret tt, add_log (EvNotify "Camera connection failed" NotificationPriority.HIGH :: wire) w0)).
  { unfold outcome, check_new_images. apply try_except_run.
    eapply bind_step.
    { unfold get_camera_files. eapply bind_step.
      { unfold camera_unavailable. rewrite bind_gets, Hcam.
        eapply bind_step; [|reflexivity].
        unfold connect_camera, connect_retries. simpl.
        rewrite bind_modify, H0, bind_modify, bind_modify, H1, bind_modify,
          bind_modify, H2, bind_modify.
        fold w0. by eapply bind_step; [exact Hsend|]. }
      reflexivity. }
    rewrite bind_gets.
    match goal with |- context [decide ?P] => destruct (decide P) as [_|Hnew] end;
      [done|].
    exfalso. apply Hnew. apply set_eq. intros name.
    rewrite elem_of_difference, elem_of_list_to_set.
    split; [by intros [?%elem_of_nil _]|by intros ?%not_elem_of_empty]. }
  unfold w'. rewrite Hrun. simpl. repeat split. by exists wire.
Qed.

Lemma check_new_images_no_camera_witness :
  let e := mkEnv ∅ Sample.rejects "20240101_000000" "2024-01-01 00:00:00" (λ data, data) (λ data, data) (λ _ _, None)
             (λ _ _ _, HttpStatus 200) (λ _ _, SerialReply "OK") (λ _, false)
             (λ _, Listed ["IMG_01.JPG"]) (λ _, Some "jpeg bytes") 50 None (λ _, "50.0") in
  let outcome := check_new_images e Sample.empty_world in
  let w' := world_of outcome in
  result_of outcome = Ret tt ∧
  camera w' = false ∧
  fs w' = fs Sample.empty_world ∧ db w' = db Sample.empty_world ∧
  processed_files w' = processed_files Sample.empty_world ∧
  ∃ wire,
    Forall (λ ev, is_wire ev = true) wire ∧
    log w' = log Sample.empty_world ++
             EvNotify "Camera connection failed" NotificationPriority.HIGH :: wire.
Proof.
  intros e. apply (check_new_images_no_camera e Sample.empty_world); reflexivity.
Defined.

Lemma download_file_run e filename data w :
  camera_init e 0 = true →
  camera_get e filename = Some data →
  download_file e filename w =
    (Ret (Some (local_path e filename)),
     set_fs <[local_path e filename := data]>
       (emit (EvCameraGet filename) (set_camera true w))).
Proof.
  intros Hinit Hget. unfold download_file. fold (local_path e filename).
  eapply bind_step; [by apply camera_unavailable_run|]. simpl.
  rewrite bind_modify, Hget. unfold write_bytes. by rewrite bind_modify.
Qed.

(** X18. The turn of a new file that downloads and uploads: the file is
    fetched from the camera once and sent to the sink once, under the
    name of its local copy, [timelapse_<stamp>_<name>], the stamp being
    the clock as [download_file] read it; its record is [success], with
    the time [handle_file_processing] read later in [processed_at]; the
    local copy is gone and the name joins the in-memory set. *)
Theorem ingest_one_delivers e filename data w :
  camera_init e 0 = true →
  camera_get e filename = Some data →
  undelivered w filename →
  UploadAccepted e (path_name (local_path e filename)) data →
  let outcome := ingest_one e filename w in
  let w' := world_of outcome in
  result_of outcome = Ret tt ∧
  filename ∈ processed_files w' ∧
  db w' !! filename = Some (ingest_record e data Success) ∧
  fs w' !! local_path e filename = None ∧
  log w' = log w ++
    [EvCameraGet filename;
     EvUploadCall (local_path e filename);
     EvSinkUpload ("/Timelapse/" +:+ "timelapse_" +:+ timestamp e +:+ "_" +:+ filename)
                  (disk_write e data)].
Proof.
  intros Hinit Hget Hun Hok outcome w'.
  set (w1 := set_fs <[local_path e filename := data]>
               (emit (EvCameraGet filename) (set_camera true w))).
  assert (Hrun : outcome =
    (Ret tt,
     set_processed (λ s, {[filename]} ∪ s)
       (set_db <[filename := ingest_record e data Success]>
          (set_fs (λ files, delete (scratch_path (local_path e filename))
                                   (delete (local_path e filename) files))
             (add_log [EvUploadCall (local_path e filename);
                       EvSinkUpload (remote_path (path_name (local_path e filename)))
                                    (disk_write e data)] w1))))).
  { unfold outcome, ingest_one.
    eapply bind_step; [by apply download_file_run|]. fold w1.
    eapply bind_step;
      [apply (handle_file_processing_accepted e filename _ data w1);
         [apply lookup_insert_eq|exact Hun|exact Hok]|].
    reflexivity. }
  unfold w'. rewrite Hrun. simpl.
  pose proof (scratch_path_ne (local_path e filename)) as Hne.
  repeat split.
  - apply elem_of_union_l. by apply elem_of_singleton.
  - apply lookup_insert_eq.
  - rewrite lookup_delete_ne by done. apply lookup_delete_eq.
  - by rewrite <- app_assoc.
Qed.

Lemma ingest_one_delivers_witness :
  let outcome := ingest_one Sample.online "IMG_01.JPG" Sample.empty_world in
  let w' := world_of outcome in
  result_of outcome = Ret tt ∧
  "IMG_01.JPG" ∈ processed_files w' ∧
  db w' !! "IMG_01.JPG" = Some (ingest_record Sample.online "jpeg bytes" Success) ∧
  fs w' !! local_path Sample.online "IMG_01.JPG" = None ∧
  log w' = log Sample.empty_world ++
    [EvCameraGet "IMG_01.JPG";
     EvUploadCall (local_path Sample.online "IMG_01.JPG");
     EvSinkUpload ("/Timelapse/" +:+ "timelapse_" +:+ timestamp Sample.online +:+ "_" +:+
                   "IMG_01.JPG")
                  (disk_write Sample.online "jpeg bytes")].
Proof.
  apply (ingest_one_delivers Sample.online "IMG_01.JPG" "jpeg bytes" Sample.empty_world).
  - reflexivity.
  - reflexivity.
  - intros r Hr. vm_compute in Hr. discriminate Hr.
  - split; reflexivity.
Defined.




(** ** Health supervisor, further *)

Lemma at_least_run e x name dflt threshold w :
  int_of_str e (getenv e name dflt) = IntValue threshold →
  at_least e x name dflt w = (Ret (Qle_bool (inject_Z threshold) x), w).
Proof. intros H. unfold at_least, env_int. by rewrite H. Qed.

Lemma at_least_raises e x name dflt err w :
  int_of_str e (getenv e name dflt) = ValueError err →
  at_least e x name dflt w = (Raise err, w).
Proof. intros H. unfold at_least, env_int. by rewrite H. Qed.

Lemma notify_only e message priority w :
  ∃ new,
    bind (send_notification e message priority) (λ _, ret tt) w = (Ret tt, add_log new w) ∧
    notifications new = [(message, priority)].
Proof.
  destruct (send_notification_effect e message priority w)
    as (delivered & wire & Hsend & Hwire).
  eexists. split; [by eapply bind_step; [exact Hsend|]|].
  change (notifications (EvNotify message priority :: wire))
    with ((message, priority) :: notifications wire).
  by rewrite notifications_wire.
Qed.

(** X20. The disk check with thresholds that are integers: a
    percentage used at or above the critical threshold is notified as
    CRITICAL, one below it and at or above the warning threshold as
    LOW, any other not at all; the check notifies at most once and
    changes nothing else. *)
Theorem check_disk_levels e critical warning w :
  Str.py_int (getenv e "DISK_CRITICAL_THRESHOLD" "10") = Some critical →
  Str.py_int (getenv e "DISK_WARNING_THRESHOLD" "25") = Some warning →
  ∃ new,
    check_disk e w = (Ret tt, add_log new w) ∧
    notifications new =
      if Qle_bool (inject_Z critical) (disk_usage_percent e) then
        [("Critical: Disk space low (" +:+ float_str e (disk_usage_percent e) +:+ "% used)",
          NotificationPriority.CRITICAL)]
      else if Qle_bool (inject_Z warning) (disk_usage_percent e) then
        [("Warning: Disk space getting low (" +:+ float_str e (disk_usage_percent e) +:+
          "% used)", NotificationPriority.LOW)]
      else [].
Proof.
  intros Hcritical Hwarning. unfold check_disk.
  apply (int_of_str_ascii e) in Hcritical. apply (int_of_str_ascii e) in Hwarning.
  rewrite (bind_step _ _ _ _ _ _ (at_least_run e _ _ _ critical w Hcritical) eq_refl).
  destruct (Qle_bool (inject_Z critical) (disk_usage_percent e)).
  { apply notify_only. }
  rewrite (bind_step _ _ _ _ _ _ (at_least_run e _ _ _ warning w Hwarning) eq_refl).
  destruct (Qle_bool (inject_Z warning) (disk_usage_percent e)).
  { apply notify_only. }
  exists []. by rewrite add_log_nil.
Qed.

Lemma check_disk_levels_witness :
  let e := mkEnv {[ "DISK_CRITICAL_THRESHOLD" := "90"; "DISK_WARNING_THRESHOLD" := "75" ]}
             Sample.rejects "20240101_000000" "2024-01-01 00:00:00" (λ data, data) (λ data, data) (λ _ _, None)
             (λ _ _ _, HttpStatus 200) (λ _ _, SerialReply "OK") (λ _, true)
             (λ _, Listed []) (λ _, None) 76 None (λ _, "76.0") in
  ∃ new,
    check_disk e Sample.empty_world = (Ret tt, add_log new Sample.empty_world) ∧
    notifications new =
      if Qle_bool (inject_Z 90) (disk_usage_percent e) then
        [("Critical: Disk space low (" +:+ float_str e (disk_usage_percent e) +:+ "% used)",
          NotificationPriority.CRITICAL)]
      else if Qle_bool (inject_Z 75) (disk_usage_percent e) then
        [("Warning: Disk space getting low (" +:+ float_str e (disk_usage_percent e) +:+
          "% used)", NotificationPriority.LOW)]
      else [].
Proof.
  intros e. apply (check_disk_levels e 90 75 Sample.empty_world); reflexivity.
Defined.

(** X21. The temperature check never raises and notifies at most once.
    A sensor that cannot be read, or a threshold that [int()] rejects
    when it is consulted, silences it; otherwise a temperature
    at or above the critical threshold is notified as CRITICAL and one
    below it and at or above the warning threshold as HIGH. *)
Theorem check_temperature_levels e w :
  ∃ new,
    check_temperature e w = (Ret tt, add_log new w) ∧
    notifications new =
      match thermal_zone0 e with
      | None => []
      | Some temp =>
          match int_of_str e (getenv e "TEMP_CRITICAL_THRESHOLD" "80") with
          | ValueError _ => []
          | IntValue critical =>
              if Qle_bool (inject_Z critical) temp then
                [("Critical: System temperature " +:+ float_str e temp +:+ "°C",
                  NotificationPriority.CRITICAL)]
              else
                match int_of_str e (getenv e "TEMP_WARNING_THRESHOLD" "70") with
                | ValueError _ => []
                | IntValue warning =>
                    if Qle_bool (inject_Z warning) temp then
                      [("Warning: System temperature " +:+ float_str e temp +:+ "°C",
                        NotificationPriority.HIGH)]
                    else []
                end
          end
      end.
Proof.
  unfold check_temperature.
  destruct (thermal_zone0 e) as [temp|].
  2: { exists []. by rewrite add_log_nil. }
  destruct (int_of_str e (getenv e "TEMP_CRITICAL_THRESHOLD" "80")) as [critical|err] eqn:Hc.
  2: { exists []. rewrite add_log_nil. split; [|done].
       pose proof (at_least_raises e temp _ _ err w Hc) as Hraise.
       eapply try_catch; [eapply bind_raise; exact Hraise|done]. }
  destruct (Qle_bool (inject_Z critical) temp) eqn:Hhot.
  { destruct (notify_only e ("Critical: System temperature " +:+ float_str e temp +:+ "°C")
                NotificationPriority.CRITICAL w) as (new & Hrun & Hnew).
    exists new. split; [|done]. apply try_except_run.
    eapply bind_step; [by apply at_least_run|]. by rewrite Hhot. }
  destruct (int_of_str e (getenv e "TEMP_WARNING_THRESHOLD" "70")) as [warning|err] eqn:Hw.
  2: { exists []. rewrite add_log_nil. split; [|done].
       pose proof (at_least_raises e temp _ _ err w Hw) as Hraise.
       eapply try_catch; [|done].
       eapply bind_step; [by apply at_least_run|]. rewrite Hhot.
       eapply bind_raise. exact Hraise. }
  destruct (Qle_bool (inject_Z warning) temp) eqn:Hwarm.
  { destruct (notify_only e ("Warning: System temperature " +:+ float_str e temp +:+ "°C")
                NotificationPriority.HIGH w) as (new & Hrun & Hnew).
    exists new. split; [|done]. apply try_except_run.
    eapply bind_step; [by apply at_least_run|]. rewrite Hhot.
    eapply bind_step; [by apply at_least_run|]. by rewrite Hwarm. }
  exists []. rewrite add_log_nil. split; [|done]. apply try_except_run.
  eapply bind_step; [by apply at_least_run|]. rewrite Hhot.
  eapply bind_step; [by apply at_least_run|]. by rewrite Hwarm.
Qed.

(** X22. A critical disk threshold that [int()] rejects silences the
    whole sample: the supervisor notifies nothing, about the disk or
    about the temperature, and changes nothing. *)
Theorem system_monitor_sample_bad_threshold e err w :
  int_of_str e (getenv e "DISK_CRITICAL_THRESHOLD" "10") = ValueError err →
  system_monitor_sample e w = (Ret tt, w).
Proof.
  intros Hbad. unfold system_monitor_sample.
  pose proof (at_least_raises e (disk_usage_percent e) _ _ err w Hbad) as Hraise.
  eapply try_catch; [|done].
  eapply bind_raise. unfold check_disk. eapply bind_raise. exact Hraise.
Qed.

Lemma system_monitor_sample_bad_threshold_witness :
  let e := mkEnv {[ "DISK_CRITICAL_THRESHOLD" := "ten" ]}
             Sample.rejects "20240101_000000" "2024-01-01 00:00:00" (λ data, data) (λ data, data) (λ _ _, None)
             (λ _ _ _, HttpStatus 200) (λ _ _, SerialReply "OK") (λ _, true)
             (λ _, Listed []) (λ _, None) 99 (Some 95%Q) (λ _, "95.0") in
  system_monitor_sample e Sample.empty_world = (Ret tt, Sample.empty_world).
Proof.
  intros e.
  apply (system_monitor_sample_bad_threshold e
           "invalid literal for int() with base 10: 'ten'" Sample.empty_world).
  reflexivity.
Defined.

(** ** Modem initialisation *)

Lemma init_4g_session_run e commands : ∀ n w,
  (∀ k cmd, ∃ reply, modem_reply e k cmd = SerialReply reply) →
  init_4g_session e n commands w =
    (Ret tt, add_log (EvSerialWrite <$> ((λ cmd, cmd +:+ CRLF) <$> commands)) w).
Proof.
  induction commands as [|cmd rest IH]; intros n w Hup.
  - by rewrite add_log_nil.
  - simpl. destruct (Hup n (cmd +:+ CRLF)) as (reply & Hreply).
    eapply bind_step.
    { unfold init_4g_command. rewrite bind_modify. by rewrite Hreply. }
    rewrite IH by done. by rewrite emit_add_log, add_log_app.
Qed.

(** X23. [init_4g] does not look at what the modem answers: as long as
    the serial link carries the commands, the five of them are written
    in order, each ended by CR LF, and nothing is notified, even when
    every answer is an error. *)
Theorem init_4g_ignores_replies e w :
  (∀ k cmd, ∃ reply, modem_reply e k cmd = SerialReply reply) →
  init_4g e w =
    (Ret tt,
     add_log [EvSerialWrite ("AT" +:+ CRLF);
              EvSerialWrite ("AT+CPIN?" +:+ CRLF);
              EvSerialWrite ("AT+CSQ" +:+ CRLF);
              EvSerialWrite ("AT+CREG?" +:+ CRLF);
              EvSerialWrite ("AT+CGACT=1,1" +:+ CRLF)] w).
Proof.
  intros Hup. unfold init_4g. apply try_except_run.
  by rewrite init_4g_session_run.
Qed.

Lemma init_4g_ignores_replies_witness :
  init_4g Sample.offline Sample.empty_world =
    (Ret tt,
     add_log [EvSerialWrite ("AT" +:+ CRLF);
              EvSerialWrite ("AT+CPIN?" +:+ CRLF);
              EvSerialWrite ("AT+CSQ" +:+ CRLF);
              EvSerialWrite ("AT+CREG?" +:+ CRLF);
              EvSerialWrite ("AT+CGACT=1,1" +:+ CRLF)] Sample.empty_world).
Proof.
  apply (init_4g_ignores_replies Sample.offline Sample.empty_world).
  intros k cmd. exists "+CMS ERROR: 500". reflexivity.
Defined.

(** ** Network check *)

(** X24. [check_network] probes at most three times and answers whether
    one of the probes went through; it waits 5 seconds after the first
    failure and 10 after the second, and does not wait after the
    third. *)
Theorem check_network_backoff h :
  check_network h =
    (network_probe h 0 || network_probe h 1 || network_probe h 2,
     if network_probe h 0 then []
     else if network_probe h 1 then [5%Z]
     else [5%Z; 10%Z]).
Proof.
  unfold check_network, network_max_retries. simpl.
  destruct (network_probe h 0); [done|].
  destruct (network_probe h 1); [done|].
  by destruct (network_probe h 2).
Qed.

(** ** The main loop *)

Lemma returns_check_new_images e : returns (check_new_images e).
Proof.
  unfold check_new_images. apply returns_try_except. intros _.
  apply returns_bind; [apply returns_send_notification|intros _; apply returns_ret].
Qed.

Lemma returns_process_backup_files e : returns (process_backup_files e).
Proof.
  unfold process_backup_files. apply returns_try_except. intros err.
  unfold backup_error_handler.
  apply returns_bind; [apply returns_send_notification|intros _; apply returns_ret].
Qed.

Lemma monitor_power_run e h w :
  ∃ w', monitor_power e h w = (Ret (negb (ups_pin_low h)), w').
Proof.
  unfold monitor_power. destruct (ups_pin_low h); [|by eexists].
  destruct (send_notification_effect e "Power failure detected!"
              NotificationPriority.HIGH w) as (delivered & wire & Hsend & _).
  eexists. by eapply bind_step; [exact Hsend|].
Qed.

Lemma release_camera_run w :
  ∃ w', release_camera w = (Ret tt, w') ∧ camera w' = false.
Proof.
  unfold release_camera. rewrite bind_gets.
  destruct (camera w) eqn:Hcam; by eexists.
Qed.

Section Cycle.
Import Loop.

Lemma lift_run {A} (m : M A) a w' s :
  m (world s) = (Ret a, w') →
  lift m s = (Ret a, mkState w' (consecutive_failures s) (reboots s) (slept s)).
Proof. unfold lift. by intros ->. Qed.

Lemma loop_bind_step {A B} (m : R A) (k : A → R B) s a s' r :
  m s = (Ret a, s') → k a s' = r → Loop.bind m k s = r.
Proof. unfold Loop.bind. by intros -> <-. Qed.

(** The part of a cycle before the failure count is looked at: it
    returns, with the count set from the power pin and the camera
    released. *)
Lemma run_cycle_prefix e h s (rest : R unit) :
  ∃ w',
    camera w' = false ∧
    Loop.bind (lift (monitor_power e h)) (λ powered,
      Loop.bind (if negb powered
                 then set_failures (λ n, n + 1)%Z
                 else set_failures (λ _, 0%Z)) (λ _,
      Loop.bind (lift (check_new_images e)) (λ _,
      Loop.bind (lift (process_backup_files e)) (λ _,
      Loop.bind (lift release_camera) (λ _, rest))))) s
    = rest (mkState w'
              (if ups_pin_low h then consecutive_failures s + 1 else 0)%Z
              (reboots s) (slept s)).
Proof.
  destruct (monitor_power_run e h (world s)) as (w1 & Hpower).
  destruct (returns_check_new_images e w1) as ([] & w2 & Hnew).
  destruct (returns_process_backup_files e w2) as ([] & w3 & Hbackup).
  destruct (release_camera_run w3) as (w4 & Hrelease & Hcam).
  exists w4. split; [done|].
  eapply loop_bind_step; [by apply lift_run|].
  destruct (ups_pin_low h); simpl.
  - eapply loop_bind_step; [reflexivity|].
    eapply loop_bind_step; [apply lift_run; simpl; exact Hnew|].
    eapply loop_bind_step; [apply lift_run; simpl; exact Hbackup|].
    by eapply loop_bind_step; [apply lift_run; simpl; exact Hrelease|].
  - eapply loop_bind_step; [reflexivity|].
    eapply loop_bind_step; [apply lift_run; simpl; exact Hnew|].
    eapply loop_bind_step; [apply lift_run; simpl; exact Hbackup|].
    by eapply loop_bind_step; [apply lift_run; simpl; exact Hrelease|].
Qed.

(** X25. A cycle with power present: the count of consecutive failures
    is back to zero, no reboot is asked for, the camera handle is
    released, and the loop sleeps for the check interval. *)
Theorem run_cycle_powered e h check_interval s :
  ups_pin_low h = false →
  ∃ s',
    run_cycle e h check_interval s = (Ret tt, s') ∧
    consecutive_failures s' = 0 ∧
    reboots s' = reboots s ∧
    camera (world s') = false ∧
    slept s' = slept s ++ [check_interval].
Proof.
  intros Hpower. unfold run_cycle.
  match goal with |- context [Loop.bind (lift release_camera) (λ _, ?rest)] =>
    destruct (run_cycle_prefix e h s rest) as (w' & Hcam & Hrun)
  end.
  rewrite Hpower in Hrun.
  eexists. split.
  - unfold Loop.try_except. rewrite Hrun. reflexivity.
  - done.
Qed.

Lemma run_cycle_powered_witness :
  ∃ s',
    run_cycle Sample.online (mkHost false None (λ _, true)) 60
              (mkState Sample.backlog 2 0 []) = (Ret tt, s') ∧
    consecutive_failures s' = 0 ∧
    reboots s' = reboots (mkState Sample.backlog 2 0 []) ∧
    camera (world s') = false ∧
    slept s' = slept (mkState Sample.backlog 2 0 []) ++ [60%Z].
Proof.
  apply (run_cycle_powered Sample.online (mkHost false None (λ _, true)) 60
           (mkState Sample.backlog 2 0 [])).
  reflexivity.
Defined.

(** A cycle without power, when the reboot command can be run. *)
Lemma run_cycle_unpowered e h check_interval s :
  ups_pin_low h = true →
  reboot h = None →
  let failures := (consecutive_failures s + 1)%Z in
  ∃ s',
    run_cycle e h check_interval s = (Ret tt, s') ∧
    consecutive_failures s' = failures ∧
    camera (world s') = false ∧
    slept s' = slept s ++ [check_interval] ∧
    if (3 <=? failures)%Z then
      reboots s' = S (reboots s) ∧
      EvNotify ("System restart triggered after " +:+ pretty failures +:+
                " consecutive failures") NotificationPriority.CRITICAL
        ∈ log (world s')
    else reboots s' = reboots s.
Proof.
  intros Hpower Hreboot failures. unfold run_cycle.
  match goal with |- context [Loop.bind (lift release_camera) (λ _, ?rest)] =>
    destruct (run_cycle_prefix e h s rest) as (w' & Hcam & Hrun)
  end.
  rewrite Hpower in Hrun. fold failures in Hrun.
  unfold Loop.try_except. rewrite Hrun. clear Hrun.
  unfold Loop.gets, Loop.bind at 1. simpl.
  unfold max_consecutive_failures.
  destruct (3 <=? failures)%Z.
  - destruct (send_notification_effect e
                ("System restart triggered after " +:+ pretty failures +:+
                 " consecutive failures") NotificationPriority.CRITICAL w')
      as (delivered & wire & Hsend & _).
    eexists. split.
    + unfold Loop.bind, lift, run_reboot, sleep. simpl. rewrite Hsend. simpl.
      rewrite Hreboot. reflexivity.
    + simpl. repeat split; try done.
      apply elem_of_app. right. apply list_elem_of_here.
  - eexists. split; [reflexivity|]. done.
Qed.

(** X26. A cycle without power: the count of consecutive failures goes
    up by one.  Below three nothing more happens; at three or more the
    CRITICAL [System restart triggered] is notified, with the count,
    and the reboot is asked for, once.  Either way the camera handle is
    released and the loop sleeps for the check interval. *)
Theorem run_cycle_power_lost e h check_interval s :
  ups_pin_low h = true →
  reboot h = None →
  let failures := (consecutive_failures s + 1)%Z in
  ∃ s',
    run_cycle e h check_interval s = (Ret tt, s') ∧
    consecutive_failures s' = failures ∧
    camera (world s') = false ∧
    slept s' = slept s ++ [check_interval] ∧
    if (3 <=? failures)%Z then
      reboots s' = S (reboots s) ∧
      EvNotify ("System restart triggered after " +:+ pretty failures +:+
                " consecutive failures") NotificationPriority.CRITICAL
        ∈ log (world s')
    else reboots s' = reboots s.
Proof.
  intros Hpower Hreboot failures.
  destruct (run_cycle_unpowered e h check_interval s Hpower Hreboot)
    as (s' & Hrun & Hrest).
  by exists s'.
Qed.

Lemma run_cycle_power_lost_witness :
  let s := mkState Sample.backlog 2 0 [] in
  let h := mkHost true None (λ _, true) in
  let failures := (consecutive_failures s + 1)%Z in
  ∃ s',
    run_cycle Sample.online h 60 s = (Ret tt, s') ∧
    consecutive_failures s' = failures ∧
    camera (world s') = false ∧
    slept s' = slept s ++ [60%Z] ∧
    if (3 <=? failures)%Z then
      reboots s' = S (reboots s) ∧
      EvNotify ("System restart triggered after " +:+ pretty failures +:+
                " consecutive failures") NotificationPriority.CRITICAL
        ∈ log (world s')
    else reboots s' = reboots s.
Proof.
  intros s h.
  apply (run_cycle_power_lost Sample.online h 60 s); reflexivity.
Defined.

(** X27. Three cycles in a row without power, from a count of zero:
    the first two ask for no reboot, the third asks for one. *)
Theorem run_three_cycles_without_power e1 e2 e3 h check_interval s :
  ups_pin_low h = true →
  reboot h = None →
  consecutive_failures s = 0 →
  ∃ s1 s2 s3,
    run_cycle e1 h check_interval s = (Ret tt, s1) ∧
    run_cycle e2 h check_interval s1 = (Ret tt, s2) ∧
    run_cycle e3 h check_interval s2 = (Ret tt, s3) ∧
    reboots s1 = reboots s ∧
    reboots s2 = reboots s ∧
    reboots s3 = S (reboots s) ∧
    consecutive_failures s3 = 3.
Proof.
  intros Hpower Hreboot Hzero.
  destruct (run_cycle_unpowered e1 h check_interval s Hpower Hreboot)
    as (s1 & Hrun1 & Hcount1 & _ & _ & Hreboots1).
  destruct (run_cycle_unpowered e2 h check_interval s1 Hpower Hreboot)
    as (s2 & Hrun2 & Hcount2 & _ & _ & Hreboots2).
  destruct (run_cycle_unpowered e3 h check_interval s2 Hpower Hreboot)
    as (s3 & Hrun3 & Hcount3 & _ & _ & Hreboots3).
  rewrite Hzero in *. rewrite Hcount1 in *. rewrite Hcount2 in *.
  simpl in Hreboots1, Hreboots2, Hreboots3. destruct Hreboots3 as [Hreboots3 _].
  exists s1, s2, s3. repeat split; try done; congruence.
Qed.

Lemma run_three_cycles_without_power_witness :
  let s := mkState Sample.backlog 0 0 [] in
  let h := mkHost true None (λ _, true) in
  ∃ s1 s2 s3,
    run_cycle Sample.online h 60 s = (Ret tt, s1) ∧
    run_cycle Sample.offline h 60 s1 = (Ret tt, s2) ∧
    run_cycle Sample.online h 60 s2 = (Ret tt, s3) ∧
    reboots s1 = reboots s ∧
    reboots s2 = reboots s ∧
    reboots s3 = S (reboots s) ∧
    consecutive_failures s3 = 3.
Proof.
  intros s h.
  apply (run_three_cycles_without_power Sample.online Sample.offline Sample.online h 60 s);
    reflexivity.
Defined.

(** X28. A reboot command that cannot be run does not end the loop: the
    error is notified as CRITICAL [Main loop error], the failure is
    counted once more, and the loop sleeps for 60 seconds in place of
    the check interval. *)
Theorem run_cycle_reboot_fails e h check_interval err s :
  ups_pin_low h = true →
  reboot h = Some err →
  (3 ≤ consecutive_failures s + 1)%Z →
  ∃ s',
    run_cycle e h check_interval s = (Ret tt, s') ∧
    consecutive_failures s' = (consecutive_failures s + 2)%Z ∧
    reboots s' = S (reboots s) ∧
    slept s' = slept s ++ [60%Z] ∧
    EvNotify ("Main loop error: " +:+ err) NotificationPriority.CRITICAL
      ∈ log (world s').
Proof.
  intros Hpower Hreboot Hceiling. unfold run_cycle.
  match goal with |- context [Loop.bind (lift release_camera) (λ _, ?rest)] =>
    destruct (run_cycle_prefix e h s rest) as (w' & Hcam & Hrun)
  end.
  rewrite Hpower in Hrun.
  unfold Loop.try_except. rewrite Hrun. clear Hrun.
  unfold Loop.gets, Loop.bind at 1. simpl.
  unfold max_consecutive_failures.
  rewrite (proj2 (Z.leb_le 3 (consecutive_failures s + 1))) by done.
  destruct (send_notification_effect e
              ("System restart triggered after " +:+ pretty (consecutive_failures s + 1)%Z +:+
               " consecutive failures") NotificationPriority.CRITICAL w')
    as (delivered & wire & Hsend & _).
  set (w1 := add_log (EvNotify ("System restart triggered after " +:+
                                pretty (consecutive_failures s + 1)%Z +:+
                                " consecutive failures")
                               NotificationPriority.CRITICAL :: wire) w') in *.
  destruct (send_notification_effect e ("Main loop error: " +:+ err)
              NotificationPriority.CRITICAL w1)
    as (delivered' & wire' & Hsend' & _).
  eexists. split.
  - unfold Loop.bind, lift, run_reboot, sleep, set_failures. simpl. rewrite Hsend. simpl.
    rewrite Hreboot. simpl. rewrite Hsend'. reflexivity.
  - simpl. repeat split; try lia.
    apply elem_of_app. right. apply list_elem_of_here.
Qed.

Lemma run_cycle_reboot_fails_witness :
  let s := mkState Sample.backlog 2 0 [] in
  let h := mkHost true (Some "[Errno 2] No such file or directory: 'sudo'") (λ _, true) in
  ∃ s',
    run_cycle Sample.online h 60 s = (Ret tt, s') ∧
    consecutive_failures s' = (consecutive_failures s + 2)%Z ∧
    reboots s' = S (reboots s) ∧
    slept s' = slept s ++ [60%Z] ∧
    EvNotify ("Main loop error: " +:+ "[Errno 2] No such file or directory: 'sudo'")
             NotificationPriority.CRITICAL
      ∈ log (world s').
Proof.
  intros s h.
  apply (run_cycle_reboot_fails Sample.online h 60
           "[Errno 2] No such file or directory: 'sudo'" s).
  - reflexivity.
  - reflexivity.
  - simpl. lia.
Defined.

End Cycle.
